(** * The session-token cache of the Moneris command-line clients

    The repository holds three near-identical single-file clients.  Each one
    keeps the OAuth bearer token in one file, [~/.moneris/token.json], written
    by [saveToken] after a successful [authenticate] and read back by
    [loadToken] at the start of every command that needs authorization.

    The three clients are told apart by the header comment of their file:
    - [Docs]    : "Built using Moneris REST API documentation"
                  (first half of [moneris-cli-no-postman.ts]);
    - [General] : "Uses general knowledge of Moneris APIs"
                  (second half of [moneris-cli-no-postman.ts]);
    - [Postman] : "using Postman API context" ([moneris-cli.ts]).

    The development embeds the JavaScript values the code handles, the part
    of the file system it touches, the JSON text it writes and reads, and the
    functions [ensureConfigDir], [saveToken], [loadToken], [getConfig],
    [authenticate] and the authorization guard that opens every command. *)

From Stdlib Require Import ZArith QArith Bool List Lia.
From Stdlib Require Import Strings.String Strings.Ascii.
From Stdlib Require Import Numbers.DecimalString Numbers.DecimalPos.
Import ListNotations.

Set Warnings "-register-all".

Local Open Scope string_scope.
Local Open Scope Z_scope.

(** ** JavaScript values *)

(** The values [JSON.parse] can return.  A number is kept as an exact
    rational: the clock and the timestamps of the token file are integers of
    milliseconds, far inside the range where a double is exact.  An object
    keeps its members in source order, duplicates included. *)
Inductive json : Type :=
| JNull
| JBool (b : bool)
| JNum (q : Q)
| JStr (s : string)
| JArr (items : list json)
| JObj (members : list (string * json)).

(** What reading a property can give: [undefined] or a value. *)
Inductive jsval : Type :=
| Undefined
| Val (v : json).

(** The Number type as far as the expiry test needs it. *)
Inductive jsnum : Type :=
| NaN
| PosInf
| NegInf
| Fin (q : Q).

(** Error codes of the operating system: with the first four it refuses to
    create a directory or to open a file; with the last two a write fails
    after the file has been opened. *)
Inductive errno : Type := ENOENT | EACCES | EPERM | EROFS | ENOSPC | EIO.

(** What a JavaScript call can throw here. *)
Inductive exn : Type :=
| SyntaxError
| TypeError
| SystemError (code : errno)
(** an error of the HTTP client, with the lines [handleError] prints for it *)
| AxiosError (report : list string).

(** A call either returns or throws. *)
Inductive result (A : Type) : Type :=
| Ok (a : A)
| Throw (e : exn).
Arguments Ok {A} a.
Arguments Throw {A} e.

Definition bind {A B : Type} (m : result A) (k : A -> result B) : result B :=
  match m with
  | Ok a => k a
  | Throw e => Throw e
  end.

Notation "x <- m ;; k" := (bind m (fun x => k))
  (at level 61, m at next level, right associativity).

(** [try { body } catch (error) { handler }] *)
Definition try_catch {A : Type} (body : result A) (handler : exn -> result A)
  : result A :=
  match body with
  | Ok a => Ok a
  | Throw e => handler e
  end.

(** The conversions of the language runtime that the code reaches only on a
    token file nobody wrote with [saveToken]: a string or an object where a
    number is expected, and [parseInt] on whatever the server sent.  They are
    left to the runtime; nothing below depends on what they return. *)
Class Runtime : Type := {
  (** ECMAScript StringToNumber. *)
  StringToNumber : string -> jsnum;
  (** ToPrimitive (hint number) followed by ToNumber, on an array or an
      object; it can throw a TypeError. *)
  ObjectToNumber : json -> result jsnum;
  (** [parseInt(x)] up to its last step: the integer read, of any size (the
      engine may put zeros for the digits after the twentieth), or [None]
      for NaN.  The last step makes a Number of that integer; it is
      [to_double] below. *)
  parseInt : jsval -> option Z
}.

(** ToBoolean on the values [loadToken] can return: [null], [false], [0] and
    the empty string are falsy. *)
Definition ToBoolean (v : json) : bool :=
  match v with
  | JNull => false
  | JBool b => b
  | JNum q => negb (Qeq_bool q 0)
  | JStr s => negb (String.eqb s "")
  | JArr _ => true
  | JObj _ => true
  end.

(** The last member of an object with the given key: [JSON.parse] lets a
    later duplicate overwrite an earlier one. *)
Fixpoint lookup_member (key : string) (members : list (string * json))
  : jsval :=
  match members with
  | [] => Undefined
  | (k, v) :: rest =>
      match lookup_member key rest with
      | Val v' => Val v'
      | Undefined => if String.eqb k key then Val v else Undefined
      end
  end.

(** [v.key] for a key that no prototype defines: a TypeError on [null],
    the own member on an object, [undefined] on anything else. *)
Definition Get (v : json) (key : string) : result jsval :=
  match v with
  | JNull => Throw TypeError
  | JObj members => Ok (lookup_member key members)
  | _ => Ok Undefined
  end.

Section Coercions.
Context {rt : Runtime}.

(** ECMAScript ToNumber. *)
Definition ToNumber (x : jsval) : result jsnum :=
  match x with
  | Undefined => Ok NaN
  | Val JNull => Ok (Fin 0)
  | Val (JBool b) => Ok (Fin (if b then 1 else 0))
  | Val (JNum q) => Ok (Fin q)
  | Val (JStr s) => Ok (StringToNumber s)
  | Val (JArr items) => ObjectToNumber (JArr items)
  | Val (JObj members) => ObjectToNumber (JObj members)
  end.
End Coercions.

(** [x - k] for a finite [k]. *)
Definition num_sub (x : jsnum) (k : Z) : jsnum :=
  match x with
  | Fin q => Fin (q - inject_Z k)
  | other => other
  end.

(** [now >= x] for an integer clock value [now]: false against NaN. *)
Definition num_ge (now : Z) (x : jsnum) : bool :=
  match x with
  | NaN => false
  | PosInf => false
  | NegInf => true
  | Fin q => Qle_bool q (inject_Z now)
  end.

(** ** JSON text *)

Module JSON.

Definition dquote : ascii := "034"%char.
Definition backslash : ascii := "092"%char.
Definition newline : ascii := "010"%char.

(** *** Writing *)

Definition hex_digit (n : N) : ascii :=
  if (n <? 10)%N then ascii_of_N (48 + n) else ascii_of_N (87 + n).

(** QuoteJSONString, one character at a time: the quote, the backslash and
    the control characters are escaped, every other byte is copied. *)
Definition escape_char (c : ascii) : string :=
  let n := N_of_ascii c in
  if Ascii.eqb c dquote then String backslash (String dquote "")
  else if Ascii.eqb c backslash then String backslash (String backslash "")
  else if (n =? 8)%N then String backslash "b"
  else if (n =? 12)%N then String backslash "f"
  else if (n =? 10)%N then String backslash "n"
  else if (n =? 13)%N then String backslash "r"
  else if (n =? 9)%N then String backslash "t"
  else if (n <? 32)%N then
    String backslash
      (String "u" (String "0" (String "0"
        (String (hex_digit (n / 16)) (String (hex_digit (n mod 16)) "")))))
  else String c "".

Fixpoint escape (s : string) : string :=
  match s with
  | EmptyString => ""
  | String c r => escape_char c ++ escape r
  end.

Definition quote (s : string) : string :=
  String dquote (escape s ++ String dquote "").

(** An integer in decimal, as Number::toString prints one below 1e21. *)
Definition string_of_Z (z : Z) : string :=
  NilZero.string_of_int (Z.to_int z).

(** *** Reading *)

Definition is_ws (c : ascii) : bool :=
  let n := N_of_ascii c in
  ((n =? 32) || (n =? 9) || (n =? 10) || (n =? 13))%N.

Fixpoint skip_ws (s : string) : string :=
  match s with
  | String c r => if is_ws c then skip_ws r else s
  | EmptyString => s
  end.

Definition hex_value (c : ascii) : option N :=
  let n := N_of_ascii c in
  if ((48 <=? n) && (n <=? 57))%N then Some (n - 48)%N
  else if ((97 <=? n) && (n <=? 102))%N then Some (n - 87)%N
  else if ((65 <=? n) && (n <=? 70))%N then Some (n - 55)%N
  else None.

Definition hex4 (a b c d : ascii) : option N :=
  match hex_value a, hex_value b, hex_value c, hex_value d with
  | Some x, Some y, Some z, Some w =>
      Some (((x * 16 + y) * 16 + z) * 16 + w)%N
  | _, _, _, _ => None
  end.

(** The UTF-8 bytes of a code point of the basic plane.  A string is kept
    as the bytes of its UTF-8 text; an escaped surrogate is written out on
    its own. *)
Definition utf8 (cp : N) : string :=
  if (cp <? 128)%N then String (ascii_of_N cp) ""
  else if (cp <? 2048)%N then
    String (ascii_of_N (192 + cp / 64))
      (String (ascii_of_N (128 + cp mod 64)) "")
  else
    String (ascii_of_N (224 + cp / 4096))
      (String (ascii_of_N (128 + (cp / 64) mod 64))
        (String (ascii_of_N (128 + cp mod 64)) "")).

Definition simple_escape (e : ascii) : option ascii :=
  if Ascii.eqb e dquote then Some dquote
  else if Ascii.eqb e backslash then Some backslash
  else if Ascii.eqb e "/" then Some "/"%char
  else if Ascii.eqb e "b" then Some "008"%char
  else if Ascii.eqb e "f" then Some "012"%char
  else if Ascii.eqb e "n" then Some "010"%char
  else if Ascii.eqb e "r" then Some "013"%char
  else if Ascii.eqb e "t" then Some "009"%char
  else None.

Definition prepend (p : string) (k : option (string * string))
  : option (string * string) :=
  match k with
  | Some (s, rest) => Some (p ++ s, rest)
  | None => None
  end.

(** The characters of a string literal after its opening quote, up to and
    including the closing quote; the text after it is returned too. *)
Fixpoint parse_chars (s : string) : option (string * string) :=
  match s with
  | EmptyString => None
  | String c r =>
      if Ascii.eqb c dquote then Some ("", r)
      else if Ascii.eqb c backslash then
        match r with
        | EmptyString => None
        | String e r1 =>
            match simple_escape e with
            | Some d => prepend (String d "") (parse_chars r1)
            | None =>
                if Ascii.eqb e "u" then
                  match r1 with
                  | String h1 (String h2 (String h3 (String h4 r2))) =>
                      match hex4 h1 h2 h3 h4 with
                      | Some cp => prepend (utf8 cp) (parse_chars r2)
                      | None => None
                      end
                  | _ => None
                  end
                else None
            end
        end
      else if (N_of_ascii c <? 32)%N then None
      else prepend (String c "") (parse_chars r)
  end.

Definition digit_of (c : ascii) : option (Decimal.uint -> Decimal.uint) :=
  match N_of_ascii c with
  | 48%N => Some Decimal.D0
  | 49%N => Some Decimal.D1
  | 50%N => Some Decimal.D2
  | 51%N => Some Decimal.D3
  | 52%N => Some Decimal.D4
  | 53%N => Some Decimal.D5
  | 54%N => Some Decimal.D6
  | 55%N => Some Decimal.D7
  | 56%N => Some Decimal.D8
  | 57%N => Some Decimal.D9
  | _ => None
  end.

(** The longest run of decimal digits at the head of the text. *)
Fixpoint read_uint (s : string) : Decimal.uint * string :=
  match s with
  | EmptyString => (Decimal.Nil, s)
  | String c r =>
      match digit_of c with
      | Some d => let (u, rest) := read_uint r in (d u, rest)
      | None => (Decimal.Nil, s)
      end
  end.

(** At least one digit, and no leading zero before another digit. *)
Definition int_part_ok (u : Decimal.uint) : bool :=
  Decimal.uint_beq (Decimal.unorm u) u.

Definition read_sign (s : string) : bool * string :=
  match s with
  | String c r => if Ascii.eqb c "-" then (true, r) else (false, s)
  | EmptyString => (false, s)
  end.

Definition read_fraction (s : string) : option (option Decimal.uint * string) :=
  match s with
  | String c r =>
      if Ascii.eqb c "." then
        match read_uint r with
        | (Decimal.Nil, _) => None
        | (f, rest) => Some (Some f, rest)
        end
      else Some (None, s)
  | EmptyString => Some (None, s)
  end.

Definition read_exponent (s : string) : option (option Z * string) :=
  match s with
  | String c r =>
      if Ascii.eqb c "e" || Ascii.eqb c "E" then
        let '(neg, r1) :=
          match r with
          | String g r' =>
              if Ascii.eqb g "-" then (true, r')
              else if Ascii.eqb g "+" then (false, r')
              else (false, r)
          | EmptyString => (false, r)
          end in
        match read_uint r1 with
        | (Decimal.Nil, _) => None
        | (x, rest) =>
            let v := Z.of_N (N.of_uint x) in
            Some (Some (if neg then - v else v), rest)
        end
      else Some (None, s)
  | EmptyString => Some (None, s)
  end.

(** mantissa * 10 ^ scale, exactly. *)
Definition decimal_value (mantissa scale : Z) : Q :=
  if (0 <=? scale)%Z then inject_Z (mantissa * 10 ^ scale)
  else Qmake mantissa (Z.to_pos (10 ^ (- scale))).

(** A JSON number: sign, integer part, fraction, exponent. *)
Definition parse_number (s : string) : option (Q * string) :=
  let '(neg, s1) := read_sign s in
  let '(ip, s2) := read_uint s1 in
  if negb (int_part_ok ip) then None
  else
    match read_fraction s2 with
    | None => None
    | Some (frac, s3) =>
        match read_exponent s3 with
        | None => None
        | Some (ex, s4) =>
            let signed (n : N) := if neg then - Z.of_N n else Z.of_N n in
            match frac, ex with
            | None, None => Some (inject_Z (signed (N.of_uint ip)), s4)
            | _, _ =>
                let f := match frac with Some f => f | None => Decimal.Nil end in
                let x := match ex with Some x => x | None => 0 end in
                Some (decimal_value
                        (signed (N.of_uint (Decimal.app ip f)))
                        (x - Z.of_nat (Decimal.nb_digits f)), s4)
            end
        end
    end.

(** What is left of the text after the given word, if it starts with it. *)
Fixpoint strip_prefix (word s : string) : option string :=
  match word, s with
  | EmptyString, _ => Some s
  | String a word', String b s' =>
      if Ascii.eqb a b then strip_prefix word' s' else None
  | String _ _, EmptyString => None
  end.

Definition expect (word : string) (v : json) (s : string)
  : option (json * string) :=
  match strip_prefix word s with
  | Some rest => Some (v, rest)
  | None => None
  end.

(** Recursive descent over the grammar of RFC 8259.  The fuel bounds the
    number of nested calls; [JSON_parse] gives more than any text needs. *)
Fixpoint parse_value (fuel : nat) (s : string) : option (json * string) :=
  match fuel with
  | O => None
  | S f =>
      match skip_ws s with
      | EmptyString => None
      | String c r =>
          if Ascii.eqb c "n" then expect "ull" JNull r
          else if Ascii.eqb c "t" then expect "rue" (JBool true) r
          else if Ascii.eqb c "f" then expect "alse" (JBool false) r
          else if Ascii.eqb c dquote then
            match parse_chars r with
            | Some (str, rest) => Some (JStr str, rest)
            | None => None
            end
          else if Ascii.eqb c "[" then
            match skip_ws r with
            | String d r' =>
                if Ascii.eqb d "]" then Some (JArr [], r')
                else parse_elements f r []
            | EmptyString => None
            end
          else if Ascii.eqb c "{" then
            match skip_ws r with
            | String d r' =>
                if Ascii.eqb d "}" then Some (JObj [], r')
                else parse_members f r []
            | EmptyString => None
            end
          else
            match parse_number (String c r) with
            | Some (q, rest) => Some (JNum q, rest)
            | None => None
            end
      end
  end
with parse_elements (fuel : nat) (s : string) (acc : list json)
  : option (json * string) :=
  match fuel with
  | O => None
  | S f =>
      match parse_value f s with
      | None => None
      | Some (v, rest) =>
          match skip_ws rest with
          | String d r' =>
              if Ascii.eqb d "," then parse_elements f r' (v :: acc)
              else if Ascii.eqb d "]" then Some (JArr (rev (v :: acc)), r')
              else None
          | EmptyString => None
          end
      end
  end
with parse_members (fuel : nat) (s : string) (acc : list (string * json))
  : option (json * string) :=
  match fuel with
  | O => None
  | S f =>
      match skip_ws s with
      | String q r =>
          if Ascii.eqb q dquote then
            match parse_chars r with
            | None => None
            | Some (key, r1) =>
                match skip_ws r1 with
                | String d r2 =>
                    if Ascii.eqb d ":" then
                      match parse_value f r2 with
                      | None => None
                      | Some (v, r3) =>
                          match skip_ws r3 with
                          | String e r4 =>
                              if Ascii.eqb e ","
                              then parse_members f r4 ((key, v) :: acc)
                              else if Ascii.eqb e "}"
                              then Some (JObj (rev ((key, v) :: acc)), r4)
                              else None
                          | EmptyString => None
                          end
                      end
                    else None
                | EmptyString => None
                end
            end
          else None
      | EmptyString => None
      end
  end.

(** *** Two notions for the proofs *)

(** The characters that follow a number in the text of a token. *)
Definition closes_number (c : ascii) : Prop := c = ","%char \/ c = newline.

(** A digit or the minus sign: how a number starts. *)
Definition number_head (c : ascii) : bool :=
  let n := N_of_ascii c in
  ((n =? 45) || ((48 <=? n) && (n <=? 57)))%N.

End JSON.

(** [JSON.parse(text)]: the value, or the SyntaxError it throws. *)
Definition JSON_parse (text : string) : result json :=
  match JSON.parse_value (2 * String.length text + 2) text with
  | Some (v, rest) =>
      match JSON.skip_ws rest with
      | EmptyString => Ok v
      | String _ _ => Throw SyntaxError
      end
  | None => Throw SyntaxError
  end.

(** ** Integers as Numbers *)

(** An integer-valued Number or an infinity: what [parseInt] gives when it
    is not NaN, and what the product and the sum of [authenticate] give. *)
Inductive number : Type :=
| Finite (z : Z)
| Infinite (negative : bool).

(** The Number value for an integer: the nearest double, a tie going to the
    even one of the two significands of 53 bits, and an infinity from
    [2^1024 - 2^970] on. *)
Definition to_double (z : Z) : number :=
  let a := Z.abs z in
  let shift := Z.log2 a + 1 - 53 in
  if shift <=? 0 then Finite z
  else
    let q := a / 2 ^ shift in
    let r := a mod 2 ^ shift in
    let half := 2 ^ (shift - 1) in
    let q' := if (half <? r) || ((r =? half) && Z.odd q) then q + 1 else q in
    let m := q' * 2 ^ shift in
    if 2 ^ 1024 <=? m then Infinite (z <? 0)
    else Finite (if z <? 0 then - m else m).
Arguments to_double : simpl never.

(** [n * 1000]: the product of two integer-valued Numbers is their exact
    product, rounded. *)
Definition times_1000 (n : number) : number :=
  match n with
  | Finite z => to_double (z * 1000)
  | Infinite negative => Infinite negative
  end.

(** [now + n] for a clock value [now], itself a double. *)
Definition clock_plus (now : Z) (n : number) : number :=
  match n with
  | Finite z => to_double (now + z)
  | Infinite negative => Infinite negative
  end.

(** [Math.floor(n / 60)]: below [2^53] the floor of the quotient of doubles
    is the floor of the exact quotient. *)
Definition minutes (n : number) : number :=
  match n with
  | Finite z => Finite (z / 60)
  | Infinite negative => Infinite negative
  end.

(** ** The token *)

(** [interface AuthToken] with both numbers finite.  The two numbers are
    integers: [expires_in] comes out of [parseInt], [expires_at] is a clock
    value plus a multiple of 1000. *)
Record AuthToken : Type := {
  access_token : string;
  token_type : string;
  expires_in : Z;
  expires_at : Z
}.

(** The object [JSON.parse] builds from the text of a token. *)
Definition json_of_token (t : AuthToken) : json :=
  JObj [ ("access_token", JStr (access_token t));
         ("token_type", JStr (token_type t));
         ("expires_in", JNum (inject_Z (expires_in t)));
         ("expires_at", JNum (inject_Z (expires_at t))) ].

(** [JSON.stringify(token, null, 2)]: one member per line, in the order the
    object literal lists them, indented by two spaces. *)
Definition JSON_stringify (t : AuthToken) : string :=
  let nl := String JSON.newline "" in
  "{" ++ nl
  ++ "  " ++ JSON.quote "access_token" ++ ": "
     ++ JSON.quote (access_token t) ++ "," ++ nl
  ++ "  " ++ JSON.quote "token_type" ++ ": "
     ++ JSON.quote (token_type t) ++ "," ++ nl
  ++ "  " ++ JSON.quote "expires_in" ++ ": "
     ++ JSON.string_of_Z (expires_in t) ++ "," ++ nl
  ++ "  " ++ JSON.quote "expires_at" ++ ": "
     ++ JSON.string_of_Z (expires_at t) ++ nl
  ++ "}".

(** [interface AuthToken] as [authenticate] fills it: either number can be
    an infinity. *)
Record IssuedToken : Type := {
  issued_access_token : string;
  issued_token_type : string;
  issued_expires_in : number;
  issued_expires_at : number
}.

(** [JSON.stringify] of a Number: an infinity is written as [null].  An
    integer is written with all its digits; from [1e21] on the engine writes
    the same number with an exponent. *)
Definition number_text (n : number) : string :=
  match n with
  | Finite z => JSON.string_of_Z z
  | Infinite _ => "null"
  end.

(** A Number in a template literal. *)
Definition number_show (n : number) : string :=
  match n with
  | Finite z => JSON.string_of_Z z
  | Infinite false => "Infinity"
  | Infinite true => "-Infinity"
  end.

(** What [JSON.parse] reads where [JSON.stringify] wrote a Number. *)
Definition json_of_number (n : number) : json :=
  match n with
  | Finite z => JNum (inject_Z z)
  | Infinite _ => JNull
  end.

(** [JSON.stringify(token, null, 2)] for the token of [authenticate]. *)
Definition JSON_stringify_issued (t : IssuedToken) : string :=
  let nl := String JSON.newline "" in
  "{" ++ nl
  ++ "  " ++ JSON.quote "access_token" ++ ": "
     ++ JSON.quote (issued_access_token t) ++ "," ++ nl
  ++ "  " ++ JSON.quote "token_type" ++ ": "
     ++ JSON.quote (issued_token_type t) ++ "," ++ nl
  ++ "  " ++ JSON.quote "expires_in" ++ ": "
     ++ number_text (issued_expires_in t) ++ "," ++ nl
  ++ "  " ++ JSON.quote "expires_at" ++ ": "
     ++ number_text (issued_expires_at t) ++ nl
  ++ "}".

(** The object [JSON.parse] builds from that text. *)
Definition json_of_issued (t : IssuedToken) : json :=
  JObj [ ("access_token", JStr (issued_access_token t));
         ("token_type", JStr (issued_token_type t));
         ("expires_in", json_of_number (issued_expires_in t));
         ("expires_at", json_of_number (issued_expires_at t)) ].

(** The token of [authenticate] as an [AuthToken], when both its numbers
    are finite. *)
Definition as_token (t : IssuedToken) : option AuthToken :=
  match issued_expires_in t, issued_expires_at t with
  | Finite lifetime, Finite stamp =>
      Some {| access_token := issued_access_token t;
              token_type := issued_token_type t;
              expires_in := lifetime;
              expires_at := stamp |}
  | _, _ => None
  end.

(** ** The file system *)

(** The two paths the code names. *)
Inductive path : Type := CONFIG_DIR | TOKEN_FILE.

(** The directory [~/.moneris]: not there, there without [token.json], or
    there with [token.json] holding a text. *)
Inductive slot : Type :=
| NoDir
| NoFile
| File (text : string).

(** The slot, and what the operating system refuses at the moment, if
    anything: creating the directory, writing the file, reading the file.
    A write that fails after the file has been opened ([ENOSPC], [EIO]) has
    put out [written] characters by then. *)
Record FS : Type := {
  stored : slot;
  mkdir_fault : option errno;
  write_fault : option errno;
  read_fault : option errno;
  written : nat
}.

Definition with_stored (fs : FS) (s : slot) : FS :=
  {| stored := s;
     mkdir_fault := mkdir_fault fs;
     write_fault := write_fault fs;
     read_fault := read_fault fs;
     written := written fs |}.

(** [fs.existsSync(path)] *)
Definition existsSync (fs : FS) (p : path) : bool :=
  match p, stored fs with
  | CONFIG_DIR, NoDir => false
  | CONFIG_DIR, _ => true
  | TOKEN_FILE, File _ => true
  | TOKEN_FILE, _ => false
  end.

(** [fs.mkdirSync(CONFIG_DIR, { recursive: true })]: the file system it
    leaves, and whether it returned or threw.  With [recursive], a directory
    that is already there is left alone. *)
Definition mkdirSync (fs : FS) : FS * result unit :=
  match stored fs with
  | NoDir =>
      match mkdir_fault fs with
      | Some code => (fs, Throw (SystemError code))
      | None => (with_stored fs NoFile, Ok tt)
      end
  | _ => (fs, Ok tt)
  end.

(** Whether a failing write fails while it opens the file. *)
Definition at_open (code : errno) : bool :=
  match code with
  | ENOSPC | EIO => false
  | _ => true
  end.

(** [fs.writeFileSync(TOKEN_FILE, data)]: the file is opened with flag [w],
    which creates it or empties it, and [data] is written into it.  A file
    that cannot be opened is left as it was; a write that fails later leaves
    what it had put out. *)
Definition writeFileSync (fs : FS) (data : string) : FS * result unit :=
  match stored fs with
  | NoDir =>
      match write_fault fs with
      | Some code =>
          (fs, Throw (SystemError (if at_open code then code else ENOENT)))
      | None => (fs, Throw (SystemError ENOENT))
      end
  | _ =>
      match write_fault fs with
      | Some code =>
          if at_open code then (fs, Throw (SystemError code))
          else (with_stored fs (File (substring 0 (written fs) data)),
                Throw (SystemError code))
      | None => (with_stored fs (File data), Ok tt)
      end
  end.

(** [fs.readFileSync(TOKEN_FILE, 'utf-8')] *)
Definition readFileSync (fs : FS) : result string :=
  match read_fault fs with
  | Some code => Throw (SystemError code)
  | None =>
      match stored fs with
      | File text => Ok text
      | _ => Throw (SystemError ENOENT)
      end
  end.

(** ** Saving: the same text in the three clients *)

Definition ensureConfigDir (fs : FS) : FS * result unit :=
  if negb (existsSync fs CONFIG_DIR) then mkdirSync fs else (fs, Ok tt).

(** The two calls of [saveToken], for a text already made. *)
Definition save_text (fs : FS) (text : string) : FS * result unit :=
  match ensureConfigDir fs with
  | (fs1, Ok _) => writeFileSync fs1 text
  | (fs1, Throw e) => (fs1, Throw e)
  end.

Definition saveToken (fs : FS) (token : AuthToken) : FS * result unit :=
  match ensureConfigDir fs with
  | (fs1, Ok _) => writeFileSync fs1 (JSON_stringify token)
  | (fs1, Throw e) => (fs1, Throw e)
  end.

(** [saveToken] on the token of [authenticate]. *)
Definition saveToken_issued (fs : FS) (token : IssuedToken)
  : FS * result unit :=
  match ensureConfigDir fs with
  | (fs1, Ok _) => writeFileSync fs1 (JSON_stringify_issued token)
  | (fs1, Throw e) => (fs1, Throw e)
  end.

(** ** The process *)

(** A line on the console; the colours of [chalk] are left out. *)
Inductive line : Type :=
| Stderr (text : string)
| Stdout (text : string).

(** How a piece of a command ends: it returns, it calls [process.exit], or
    an exception leaves it. *)
Inductive status (A : Type) : Type :=
| Returns (a : A)
| Exits (code : Z)
| Uncaught (e : exn).
Arguments Returns {A} a.
Arguments Exits {A} code.
Arguments Uncaught {A} e.

(** The lines printed, and the end. *)
Definition proc (A : Type) : Type := (list line * status A)%type.

Definition ret {A : Type} (a : A) : proc A := ([], Returns a).

Definition andThen {A B : Type} (m : proc A) (k : A -> proc B) : proc B :=
  match m with
  | (out, Returns a) => let (out', st) := k a in ((out ++ out')%list, st)
  | (out, Exits code) => (out, Exits code)
  | (out, Uncaught e) => (out, Uncaught e)
  end.

Notation "x <-- m ;; k" := (andThen m (fun x => k))
  (at level 61, m at next level, right associativity).
Notation "m ;;; k" := (andThen m (fun _ => k))
  (at level 61, right associativity).

(** Lines already printed. *)
Definition said (out : list line) : proc unit := (out, Returns tt).

Definition console_error (text : string) : proc unit := said [Stderr text].
Definition console_log (text : string) : proc unit := said [Stdout text].
Definition process_exit {A : Type} (code : Z) : proc A := ([], Exits code).

(** A call made outside any [try]. *)
Definition call {A : Type} (r : result A) : proc A :=
  match r with
  | Ok a => ret a
  | Throw e => ([], Uncaught e)
  end.

Definition nl : string := String JSON.newline "".

(** [process.env] and [os.homedir()]. *)
Record Env : Type := {
  MONERIS_CLIENT_ID : option string;
  MONERIS_CLIENT_SECRET : option string;
  MONERIS_MERCHANT_ID : option string;
  MONERIS_ENV : option string;
  MONERIS_API_VERSION : option string;
  homedir : string
}.

(** [x || fallback] on strings. *)
Definition or_string (x : option string) (fallback : string) : string :=
  match x with
  | Some v => if String.eqb v "" then fallback else v
  | None => fallback
  end.

(** [x || fallback] on the integer [parseInt] read: NaN and 0 are falsy. *)
Definition or_number (x : option Z) (fallback : Z) : Z :=
  match x with
  | Some n => if n =? 0 then fallback else n
  | None => fallback
  end.

(** [MONERIS_URLS[environment]] *)
Definition MONERIS_URLS (environment : string) : option string :=
  if String.eqb environment "sandbox" then Some "https://api.sb.moneris.io"
  else if String.eqb environment "production" then Some "https://api.moneris.io"
  else None.

(** A template literal prints a missing value as [undefined]. *)
Definition show (x : option string) : string :=
  match x with
  | Some v => v
  | None => "undefined"
  end.

Definition errno_text (code : errno) : string :=
  match code with
  | ENOENT => "ENOENT: no such file or directory"
  | EACCES => "EACCES: permission denied"
  | EPERM => "EPERM: operation not permitted"
  | EROFS => "EROFS: read-only file system"
  | ENOSPC => "ENOSPC: no space left on device"
  | EIO => "EIO: i/o error"
  end.

(** The head of [error.message].  For the two errors of the language the
    wording is the engine's; [loadToken] catches them and no command prints
    them. *)
Definition message (e : exn) : string :=
  match e with
  | SyntaxError => "Unexpected token in JSON"
  | TypeError => "Cannot read properties of null"
  | SystemError code => errno_text code
  | AxiosError _ => "Request failed"
  end.

(** [TOKEN_FILE] as a text. *)
Definition TOKEN_FILE_name (env : Env) : string :=
  homedir env ++ "/.moneris/token.json".

(** The body of the token endpoint's answer, as RFC 6749 types it; the
    token type and the lifetime may be missing. *)
Record TokenResponse : Type := {
  data_access_token : string;
  data_token_type : option string;
  data_expires_in : jsval
}.

(** ** The three clients *)

(** [loadToken] returns [AuthToken | null]; [JNull] is its [null]. *)
Module Docs.
Section Client.
Context {rt : Runtime}.

(** "Check if token is expired (with 60 second buffer)" *)
Definition loadToken (fs : FS) (now : Z) : result json :=
  try_catch
    (if negb (existsSync fs TOKEN_FILE) then Ok JNull
     else
       data <- readFileSync fs ;;
       token <- JSON_parse data ;;
       stamp <- Get token "expires_at" ;;
       n <- ToNumber stamp ;;
       if num_ge now (num_sub n 60000) then Ok JNull else Ok token)
    (fun _ => Ok JNull).

Record MonerisConfig : Type := {
  clientId : string;
  clientSecret : string;
  merchantId : string;
  baseUrl : option string;
  environment : string
}.

Definition missing_credentials {A : Type} : proc A :=
  console_error "✗ Missing credentials" ;;;
  console_log (nl ++ "Please set the following environment variables:") ;;;
  console_log "  MONERIS_CLIENT_ID" ;;;
  console_log "  MONERIS_CLIENT_SECRET" ;;;
  console_log "  MONERIS_MERCHANT_ID" ;;;
  console_log "  MONERIS_ENV (optional: sandbox|production, default: sandbox)" ;;;
  process_exit 1.

Definition getConfig (env : Env) : proc MonerisConfig :=
  let environment := or_string (MONERIS_ENV env) "sandbox" in
  match MONERIS_CLIENT_ID env, MONERIS_CLIENT_SECRET env,
        MONERIS_MERCHANT_ID env with
  | Some id, Some secret, Some merchant =>
      if String.eqb id "" || String.eqb secret "" || String.eqb merchant ""
      then missing_credentials
      else ret {| clientId := id;
                  clientSecret := secret;
                  merchantId := merchant;
                  baseUrl := MONERIS_URLS environment;
                  environment := environment |}
  | _, _, _ => missing_credentials
  end.

Definition handleError {A : Type} (error : exn) (context : string) : proc A :=
  console_error (nl ++ "✗ " ++ context ++ " failed") ;;;
  match error with
  | AxiosError report => (map Stderr report, Returns tt)
  | _ => console_error ("Error: " ++ message error)
  end ;;;
  process_exit 1.

(** [parseInt(response.data.expires_in) || 3600] as a Number: the integer
    read is 0 exactly when the Number made of it is. *)
Definition lifetime (data : TokenResponse) : number :=
  to_double (or_number (parseInt (data_expires_in data)) 3600).

(** The object literal of [authenticate]. *)
Definition new_token (now : Z) (data : TokenResponse) : IssuedToken :=
  {| issued_access_token := data_access_token data;
     issued_token_type := or_string (data_token_type data) "Bearer";
     issued_expires_in := lifetime data;
     issued_expires_at := clock_plus now (times_1000 (lifetime data)) |}.

(** [authenticate]: [response] is what [axios.post] on the token
    endpoint gives; the file system the command leaves comes first. *)
Definition authenticate (env : Env) (fs : FS) (now : Z)
    (response : result TokenResponse) : FS * proc unit :=
  match getConfig env with
  | (out, Returns config) =>
      let banner :=
        [ Stdout (nl ++ "🔐 Authenticating with Moneris...");
          Stdout ("Environment: " ++ environment config);
          Stdout ("Base URL: " ++ show (baseUrl config));
          Stdout ("Merchant ID: " ++ merchantId config) ] in
      match response with
      | Throw error =>
          (fs, said out ;;; said banner ;;;
               handleError error "Authentication")
      | Ok data =>
          let token := new_token now data in
          match saveToken_issued fs token with
          | (fs1, Throw error) =>
              (fs1, said out ;;; said banner ;;;
                    handleError error "Authentication")
          | (fs1, Ok _) =>
              (fs1, said out ;;; said banner ;;;
                    console_log (nl ++ "✓ Authentication successful!") ;;;
                    console_log ("Token type: " ++ issued_token_type token) ;;;
                    console_log
                      ("Expires in: " ++ number_show (issued_expires_in token)
                       ++ " seconds ("
                       ++ number_show (minutes (issued_expires_in token))
                       ++ " minutes)") ;;;
                    console_log ("Token saved to: " ++ TOKEN_FILE_name env))
          end
      end
  | (out, Exits code) => (fs, (out, Exits code))
  | (out, Uncaught e) => (fs, (out, Uncaught e))
  end.

(** The lines that open [createPayment], [getPayment] and
    [voidPayment]; [rest] is what the command does after them, the
    requests to the API included. *)
Definition with_token {A : Type}
    (rest : MonerisConfig -> json -> proc A)
    (env : Env) (fs : FS) (now : Z) : proc A :=
  config <-- getConfig env ;;
  token <-- call (loadToken fs now) ;;
  if negb (ToBoolean token) then
    console_error (nl ++ "✗ Not authenticated") ;;;
    console_log "Please run: moneris-cli-no-postman auth" ;;;
    process_exit 1
  else rest config token.

Definition createPayment {A : Type} := @with_token A.
Definition getPayment {A : Type} := @with_token A.
Definition voidPayment {A : Type} := @with_token A.
End Client.
End Docs.

Module General.
Section Client.
Context {rt : Runtime}.

(** "Check if token is expired" *)
Definition loadToken (fs : FS) (now : Z) : result json :=
  try_catch
    (if negb (existsSync fs TOKEN_FILE) then Ok JNull
     else
       data <- readFileSync fs ;;
       token <- JSON_parse data ;;
       stamp <- Get token "expires_at" ;;
       n <- ToNumber stamp ;;
       if num_ge now n then Ok JNull else Ok token)
    (fun _ => Ok JNull).

Record MonerisConfig : Type := {
  clientId : string;
  clientSecret : string;
  baseUrl : option string;
  environment : string
}.

Definition missing_credentials {A : Type} : proc A :=
  console_error "✗ Missing credentials" ;;;
  console_log (nl ++ "Please set the following environment variables:") ;;;
  console_log "  MONERIS_CLIENT_ID" ;;;
  console_log "  MONERIS_CLIENT_SECRET" ;;;
  console_log "  MONERIS_ENV (optional: sandbox|production, default: sandbox)" ;;;
  process_exit 1.

Definition getConfig (env : Env) : proc MonerisConfig :=
  let environment := or_string (MONERIS_ENV env) "sandbox" in
  match MONERIS_CLIENT_ID env, MONERIS_CLIENT_SECRET env with
  | Some id, Some secret =>
      if String.eqb id "" || String.eqb secret ""
      then missing_credentials
      else ret {| clientId := id;
                  clientSecret := secret;
                  baseUrl := MONERIS_URLS environment;
                  environment := environment |}
  | _, _ => missing_credentials
  end.

(** The lines that open [createPayment] and [listPayments]; [rest] is
    what the command does after them, the requests to the API
    included. *)
Definition with_token {A : Type}
    (rest : MonerisConfig -> json -> proc A)
    (env : Env) (fs : FS) (now : Z) : proc A :=
  config <-- getConfig env ;;
  token <-- call (loadToken fs now) ;;
  if negb (ToBoolean token) then
    console_error (nl ++ "✗ Not authenticated") ;;;
    console_log "Please run: moneris-cli-no-postman auth" ;;;
    process_exit 1
  else rest config token.

Definition createPayment {A : Type} := @with_token A.
Definition listPayments {A : Type} := @with_token A.
End Client.
End General.

Module Postman.
Section Client.
Context {rt : Runtime}.

(** "Check if token is expired" *)
Definition loadToken (fs : FS) (now : Z) : result json :=
  try_catch
    (if negb (existsSync fs TOKEN_FILE) then Ok JNull
     else
       data <- readFileSync fs ;;
       token <- JSON_parse data ;;
       stamp <- Get token "expires_at" ;;
       n <- ToNumber stamp ;;
       if num_ge now n then Ok JNull else Ok token)
    (fun _ => Ok JNull).

Definition API_VERSION : string := "2025-08-14".

Record MonerisConfig : Type := {
  clientId : string;
  clientSecret : string;
  merchantId : string;
  baseUrl : option string;
  apiVersion : string;
  environment : string
}.

Definition missing_credentials {A : Type} : proc A :=
  console_error "✗ Missing credentials" ;;;
  console_log (nl ++ "Please set the following environment variables:") ;;;
  console_log "  MONERIS_CLIENT_ID" ;;;
  console_log "  MONERIS_CLIENT_SECRET" ;;;
  console_log "  MONERIS_MERCHANT_ID (optional, default: 0123456789123)" ;;;
  console_log "  MONERIS_ENV (optional: sandbox|production, default: sandbox)" ;;;
  console_log "  MONERIS_API_VERSION (optional, default: 2025-08-14)" ;;;
  process_exit 1.

Definition getConfig (env : Env) : proc MonerisConfig :=
  let merchant := or_string (MONERIS_MERCHANT_ID env) "0123456789123" in
  let environment := or_string (MONERIS_ENV env) "sandbox" in
  let version := or_string (MONERIS_API_VERSION env) API_VERSION in
  match MONERIS_CLIENT_ID env, MONERIS_CLIENT_SECRET env with
  | Some id, Some secret =>
      if String.eqb id "" || String.eqb secret ""
      then missing_credentials
      else ret {| clientId := id;
                  clientSecret := secret;
                  merchantId := merchant;
                  baseUrl := MONERIS_URLS environment;
                  apiVersion := version;
                  environment := environment |}
  | _, _ => missing_credentials
  end.

(** The lines that open [createPayment], [listPayments] and
    [deleteAllPayments]; [rest] is what the command does after them,
    the requests to the API included. *)
Definition with_token {A : Type}
    (rest : MonerisConfig -> json -> proc A)
    (env : Env) (fs : FS) (now : Z) : proc A :=
  config <-- getConfig env ;;
  token <-- call (loadToken fs now) ;;
  if negb (ToBoolean token) then
    console_error (nl ++ "✗ Not authenticated") ;;;
    console_log "Please run: moneris-cli auth" ;;;
    process_exit 1
  else rest config token.

Definition createPayment {A : Type} := @with_token A.
Definition listPayments {A : Type} := @with_token A.
Definition deleteAllPayments {A : Type} := @with_token A.
End Client.
End Postman.

(** What a command prints, and how it ends, when it finds no token:
    the two lines of its guard, then [process.exit(1)]. *)
Definition refusal {A : Type} (program : string) : proc A :=
  ([ Stderr (nl ++ "✗ Not authenticated");
     Stdout ("Please run: " ++ program ++ " auth") ],
   Exits 1).

(** ** Values for the examples *)

Module Examples.

(** The runtime the examples run on.  It answers as Node does where the
    examples ask: [parseInt] of an integer and of a missing value.  No
    example converts a string or an object to a number. *)
Definition runtime : Runtime :=
  {| StringToNumber := fun _ => NaN;
     ObjectToNumber := fun _ => Ok NaN;
     parseInt := fun x =>
       match x with
       | Val (JNum q) =>
           if Pos.eqb (Qden q) 1 then Some (Qnum q) else None
       | _ => None
       end |}.

(** No [~/.moneris] yet, and an operating system that refuses nothing. *)
Definition fresh : FS :=
  {| stored := NoDir;
     mkdir_fault := None; write_fault := None; read_fault := None;
     written := 0 |}.

Definition holding (text : string) : FS :=
  {| stored := File text;
     mkdir_fault := None; write_fault := None; read_fault := None;
     written := 0 |}.

(** The token of the scenario: issued at 0, good for 3600 seconds. *)
Definition hour_token : AuthToken :=
  {| access_token := "eyJhbGciOi";
     token_type := "Bearer";
     expires_in := 3600;
     expires_at := 3600000 |}.

Definition other_token : AuthToken :=
  {| access_token := "c2Vjb25k";
     token_type := "Bearer";
     expires_in := 7200;
     expires_at := 9000000 |}.

(** [token.json] exists and cannot be read. *)
Definition unreadable : FS :=
  {| stored := File (JSON_stringify hour_token);
     mkdir_fault := None; write_fault := None; read_fault := Some EACCES;
     written := 0 |}.

(** [~/.moneris] exists and nothing can be written into it. *)
Definition write_denied : FS :=
  {| stored := NoFile;
     mkdir_fault := None; write_fault := Some EACCES; read_fault := None;
     written := 0 |}.

(** A text that is not JSON. *)
Definition garbage : string := "{ not json".

(** [{"access_token":"abc"}]: an object without [expires_at]. *)
Definition no_stamp_text : string :=
  "{" ++ JSON.quote "access_token" ++ ":" ++ JSON.quote "abc" ++ "}".

(** [{"access_token":"abc","expires_at":null}] *)
Definition null_stamp_text : string :=
  "{" ++ JSON.quote "access_token" ++ ":" ++ JSON.quote "abc" ++ ","
      ++ JSON.quote "expires_at" ++ ":null}".

Definition env : Env :=
  {| MONERIS_CLIENT_ID := Some "client";
     MONERIS_CLIENT_SECRET := Some "secret";
     MONERIS_MERCHANT_ID := Some "0123456789123";
     MONERIS_ENV := None;
     MONERIS_API_VERSION := None;
     homedir := "/home/dev" |}.

(** The answer of the token endpoint in the scenario. *)
Definition answer : TokenResponse :=
  {| data_access_token := "eyJhbGciOi";
     data_token_type := Some "Bearer";
     data_expires_in := Val (JNum 3600) |}.

End Examples.

(** ** More of the [Docs] client: the test payment *)

Module DocsTest.
Section Client.
Context {rt : Runtime}.

(** The parameters of [createPayment]. *)
Record PaymentArgs : Type := {
  amount : string;
  currency : string;
  cardNumber : option string;
  expiryMonth : option string;
  expiryYear : option string;
  cvd : option string;
  description : option string;
  reference : option string
}.

(** [cents.toString()] for what [parseInt] gave: an integer, or NaN. *)
Definition toString (cents : option Z) : string :=
  match cents with
  | Some z => JSON.string_of_Z z
  | None => "NaN"
  end.

(** [s.padStart(2, '0')] *)
Definition padStart2 (s : string) : string :=
  match String.length s with
  | O => "00"
  | S O => "0" ++ s
  | _ => s
  end.

(** [testPayment(cents)]: [stamp] is the clock value read for the reference
    of the payment, [now] the one [loadToken] reads after it; [rest] is the
    body of [createPayment] after its guard. *)
Definition testPayment {A : Type}
    (rest : PaymentArgs -> Docs.MonerisConfig -> json -> proc A)
    (cents : option Z) (env : Env) (fs : FS) (stamp now : Z) : proc A :=
  config <-- Docs.getConfig env ;;
  if negb (String.eqb (Docs.environment config) "sandbox") then
    console_error (nl ++ "✗ Test payments only work in sandbox environment") ;;;
    console_log "Please set MONERIS_ENV=sandbox" ;;;
    process_exit 1
  else
    let amount := "1." ++ padStart2 (toString cents) in
    console_log (nl ++ "🧪 Testing payment with Penny Value Simulator...") ;;;
    console_log ("Test amount: $" ++ amount ++ " (cents value "
                 ++ toString cents ++ " determines the response)") ;;;
    Docs.createPayment
      (rest {| amount := amount;
               currency := "CAD";
               cardNumber := Some "4242424242424242";
               expiryMonth := Some "12";
               expiryYear := Some "25";
               cvd := Some "123";
               description :=
                 Some ("Test payment - penny value " ++ toString cents);
               reference := Some ("test-" ++ JSON.string_of_Z stamp) |})
      env fs now.

(** [x < 0 || x > 99] for an integer or NaN: a comparison with NaN is
    false. *)
Definition out_of_range (pennies : option Z) : bool :=
  match pennies with
  | Some z => (z <? 0) || (99 <? z)
  | None => false
  end.

(** The action of the [test-payment] command; [pennies] is the integer
    [parseInt] read in the option, or NaN.  The Number made of it is out of
    range exactly when the integer is, and is the integer when in range. *)
Definition test_payment {A : Type}
    (rest : PaymentArgs -> Docs.MonerisConfig -> json -> proc A)
    (pennies : option Z) (env : Env) (fs : FS) (stamp now : Z) : proc A :=
  if out_of_range pennies then
    console_error "✗ Pennies must be between 0 and 99" ;;;
    process_exit 1
  else testPayment rest pennies env fs stamp now.
End Client.
End DocsTest.

(** ** More of the [Postman] client: deleting all payments *)

Module PostmanDelete.

(** [interface ListPaymentsResponse]; of a payment the command reads the
    [paymentId] only, so a payment is kept as its identifier. *)
Record ListPaymentsResponse : Type := {
  data : list string;
  has_more : bool;
  next_cursor : option string
}.

(** The requests of the command; headers are left out. *)
Inductive request : Type :=
| GetPayments (cursor : option string)
| DeletePayment (paymentId : string).

(** What the command does that can be seen from outside. *)
Inductive event : Type :=
| Shown (l : line)
| Sent (r : request).

Definition print (text : string) : event := Shown (Stdout text).

(** [if (cursor) params.cursor = cursor]: an empty cursor is not sent. *)
Definition sent_cursor (cursor : option string) : option string :=
  match cursor with
  | Some c => if String.eqb c "" then None else Some c
  | None => None
  end.

(** The [while (hasMore)] loop.  [answers] are the answers of the server
    to the successive GET requests.  The result is the requests sent, and
    either the end of the loop (all the payments, or the error thrown) or
    [None] when the loop has used up the answers and is asking again. *)
Fixpoint fetch_all (answers : list (result ListPaymentsResponse))
    (cursor : option string) (allPayments : list string)
  : list event * option (result (list string)) :=
  match answers with
  | [] => ([], None)
  | answer :: later =>
      let asked := Sent (GetPayments (sent_cursor cursor)) in
      match answer with
      | Throw error => ([asked], Some (Throw error))
      | Ok response =>
          let all := (allPayments ++ data response)%list in
          if has_more response then
            let (events, outcome) := fetch_all later (next_cursor response) all in
            (asked :: events, outcome)
          else ([asked], Some (Ok all))
      end
  end.

(** What the server does with [DELETE /payments/{id}]: it deletes, or the
    request fails, with the status of the response if there is one. *)
Inductive delete_answer : Type :=
| Deleted
| Refused (status : option Z).

(** The [for (const payment of allPayments)] loop: the events, then
    [deletedCount] and [failedCount]. *)
Fixpoint delete_each (answer : string -> delete_answer)
    (payments : list string) (deletedCount failedCount : Z)
  : list event * (Z * Z) :=
  match payments with
  | [] => ([], (deletedCount, failedCount))
  | paymentId :: others =>
      let asked := Sent (DeletePayment paymentId) in
      match answer paymentId with
      | Deleted =>
          let (events, counts) :=
            delete_each answer others (deletedCount + 1) failedCount in
          ((asked :: print ("  ✓ Deleted payment " ++ paymentId) :: events)%list,
           counts)
      | Refused status =>
          let told :=
            match status with
            | Some 404 =>
                [ print ("  ⚠ Payment " ++ paymentId
                         ++ " - DELETE not supported (404)") ]
            | Some code =>
                [ print ("  ✗ Failed to delete payment " ++ paymentId);
                  print ("    Status: " ++ JSON.string_of_Z code) ]
            | None =>
                [ print ("  ✗ Failed to delete payment " ++ paymentId) ]
            end in
          let (events, counts) :=
            delete_each answer others deletedCount (failedCount + 1) in
          ((asked :: told ++ events)%list, counts)
      end
  end.

(** [handleError] of this client. *)
Definition handleError {A : Type} (error : exn) (context : string) : proc A :=
  console_error (nl ++ "✗ " ++ context ++ " failed") ;;;
  match error with
  | AxiosError report => said (map Stderr report)
  | _ => console_error ("Error: " ++ message error)
  end ;;;
  process_exit 1.

Definition rule : string := "━━━━━━━━━━━━━━━━━━━━━━━━━━━━━━━━━━━━━━━━".

(** [deleteAllPayments(confirm)] after its guard: the events in order and
    how the command ends, or [None] when the loop that fetches the payments
    has not ended on the answers given. *)
Definition deleteAllPayments (confirm : bool)
    (answers : list (result ListPaymentsResponse))
    (answer : string -> delete_answer)
  : option (list event * status unit) :=
  let opening :=
    [ print (nl ++ "🗑️  Attempting to delete all payments...");
      print "Fetching all payments..." ] in
  match fetch_all answers None [] with
  | (events, None) => None
  | (events, Some (Throw error)) =>
      let (out, st) := @handleError unit error "Delete all payments" in
      Some ((opening ++ events ++ map Shown out)%list, st)
  | (events, Some (Ok allPayments)) =>
      match allPayments with
      | [] =>
          Some ((opening ++ events
                 ++ [ print (nl ++ "⚠ No payments found") ])%list,
                Returns tt)
      | _ :: _ =>
          let found :=
            [ print (nl ++ "⚠ Found "
                     ++ JSON.string_of_Z (Z.of_nat (List.length allPayments))
                     ++ " payment(s)");
              print (nl ++ "⚠ Important: The Moneris API does not support deleting payments");
              print "   Payments cannot be deleted for compliance and audit purposes.";
              print ("   To reverse a payment, use the refund feature instead."
                     ++ nl) ] in
          if negb confirm then
            Some ((opening ++ events ++ found
                   ++ [ print "Use --confirm flag to attempt deletion anyway (will fail):";
                        print ("  moneris-cli delete-all-payments --confirm"
                               ++ nl) ])%list,
                  Returns tt)
          else
            let '(deletions, (deletedCount, failedCount)) :=
              delete_each answer allPayments 0 0 in
            Some ((opening ++ events ++ found
                   ++ [ print ("Attempting deletion (expected to fail)..." ++ nl) ]
                   ++ deletions
                   ++ [ print (nl ++ rule);
                        print ("✓ Deleted: " ++ JSON.string_of_Z deletedCount
                               ++ " payment(s)");
                        print ("⚠ Not supported: "
                               ++ JSON.string_of_Z failedCount ++ " payment(s)");
                        print rule;
                        print (nl ++ "Note: Use refunds to reverse payments instead of deletion."
                               ++ nl) ])%list,
                  Returns tt)
      end
  end.

(** The requests among the events. *)
Fixpoint requests (events : list event) : list request :=
  match events with
  | [] => []
  | Sent r :: rest => r :: requests rest
  | Shown _ :: rest => requests rest
  end.

(** An answer that carries a page and says there is more. *)
Definition says_more (answer : result ListPaymentsResponse) : Prop :=
  exists response, answer = Ok response /\ has_more response = true.

End PostmanDelete.

(** ** More values for the examples *)

Module MoreExamples.

(** A server with three payments on two pages. *)
Definition two_pages : list (result PostmanDelete.ListPaymentsResponse) :=
  [ Ok {| PostmanDelete.data := ["pay_1"; "pay_2"];
          PostmanDelete.has_more := true;
          PostmanDelete.next_cursor := Some "d41d8cd9" |};
    Ok {| PostmanDelete.data := ["pay_3"];
          PostmanDelete.has_more := false;
          PostmanDelete.next_cursor := None |} ].

(** A page that says there is more and gives no cursor. *)
Definition endless : result PostmanDelete.ListPaymentsResponse :=
  Ok {| PostmanDelete.data := ["pay_1"];
        PostmanDelete.has_more := true;
        PostmanDelete.next_cursor := None |}.

(** A server that supports no deletion. *)
Definition not_supported (paymentId : string) : PostmanDelete.delete_answer :=
  PostmanDelete.Refused (Some 404).

(** An environment set for production. *)
Definition production : Env :=
  {| MONERIS_CLIENT_ID := Some "client";
     MONERIS_CLIENT_SECRET := Some "secret";
     MONERIS_MERCHANT_ID := Some "0123456789123";
     MONERIS_ENV := Some "production";
     MONERIS_API_VERSION := None;
     homedir := "/home/dev" |}.

(** What [getConfig] of the [Docs] client returns on the two
    environments of the examples. *)
Definition sandbox_config : Docs.MonerisConfig :=
  {| Docs.clientId := "client";
     Docs.clientSecret := "secret";
     Docs.merchantId := "0123456789123";
     Docs.baseUrl := Some "https://api.sb.moneris.io";
     Docs.environment := "sandbox" |}.

Definition production_config : Docs.MonerisConfig :=
  {| Docs.clientId := "client";
     Docs.clientSecret := "secret";
     Docs.merchantId := "0123456789123";
     Docs.baseUrl := Some "https://api.moneris.io";
     Docs.environment := "production" |}.

(** [~/.moneris] is missing and cannot be made. *)
Definition mkdir_denied : FS :=
  {| stored := NoDir;
     mkdir_fault := Some EACCES; write_fault := None; read_fault := None;
     written := 0 |}.

(** A token is stored and the disk is full: [token.json] can be opened,
    and the write fails before anything is put out. *)
Definition disk_full : FS :=
  {| stored := File (JSON_stringify Examples.hour_token);
     mkdir_fault := None; write_fault := Some ENOSPC; read_fault := None;
     written := 0 |}.

(** The runtime of [Examples], with a [parseInt] that also reads a string
    of decimal digits. *)
Definition runtime : Runtime :=
  {| StringToNumber := fun _ => NaN;
     ObjectToNumber := fun _ => Ok NaN;
     parseInt := fun x =>
       match x with
       | Val (JNum q) =>
           if Pos.eqb (Qden q) 1 then Some (Qnum q) else None
       | Val (JStr s) =>
           if String.eqb s "" then None
           else option_map Z.of_uint (NilEmpty.uint_of_string s)
       | _ => None
       end |}.

Fixpoint zeros (n : nat) : string :=
  match n with
  | O => ""
  | S k => String "0" (zeros k)
  end.

(** An answer of the token endpoint whose [expires_in] is the digit 1
    followed by 309 zeros: more than the largest double. *)
Definition endless_lifetime : TokenResponse :=
  {| data_access_token := "eyJhbGciOi";
     data_token_type := Some "Bearer";
     data_expires_in := Val (JStr (String "1" (zeros 309))) |}.

(** An answer whose [expires_in] is ten to the sixteenth. *)
Definition long_lifetime : TokenResponse :=
  {| data_access_token := "eyJhbGciOi";
     data_token_type := Some "Bearer";
     data_expires_in := Val (JStr "10000000000000000") |}.

End MoreExamples.

(** * Properties *)

(** ** Reading back what was written *)

Module JSONFacts.
Import JSON.

Lemma prepend_char (c : ascii) (k : option (string * string)) :
  prepend (String c "") k =
  match k with
  | Some (s, rest) => Some (String c s, rest)
  | None => None
  end.
Proof. destruct k as [[s rest]|]; reflexivity. Qed.

(** One escaped character is read back as that character. *)
Lemma parse_chars_escape_char (c : ascii) (t : string) :
  parse_chars (escape_char c ++ t) = prepend (String c "") (parse_chars t).
Proof.
  destruct c as [[] [] [] [] [] [] [] []]; reflexivity.
Qed.

Lemma append_assoc (a b c : string) : ((a ++ b) ++ c = a ++ (b ++ c))%string.
Proof. induction a as [|x a IH]; simpl; [reflexivity | now rewrite IH]. Qed.

Lemma parse_chars_escape (s rest : string) :
  parse_chars (escape s ++ String dquote rest) = Some (s, rest).
Proof.
  induction s as [|c s IH]; simpl.
  - reflexivity.
  - rewrite append_assoc, parse_chars_escape_char, IH.
    reflexivity.
Qed.

(** A quoted string is read back as the string. *)
Lemma parse_chars_quote (s rest : string) :
  exists body,
    (quote s ++ rest)%string = String dquote body /\
    parse_chars body = Some (s, rest).
Proof.
  exists (escape s ++ String dquote rest)%string. split.
  - unfold quote. simpl. now rewrite append_assoc.
  - apply parse_chars_escape.
Qed.

Lemma read_uint_print (u : Decimal.uint) (c : ascii) (r : string) :
  closes_number c ->
  read_uint (NilEmpty.string_of_uint u ++ String c r) = (u, String c r).
Proof.
  intros Hc. induction u; simpl; try (rewrite IHu; reflexivity).
  destruct Hc as [-> | ->]; reflexivity.
Qed.

Lemma read_sign_digits (u : Decimal.uint) (rest : string) :
  u <> Decimal.Nil ->
  read_sign (NilEmpty.string_of_uint u ++ rest)
  = (false, (NilEmpty.string_of_uint u ++ rest)%string).
Proof. destruct u; intros H; [contradiction | reflexivity ..]. Qed.

Lemma int_part_ok_pos (p : positive) : int_part_ok (Pos.to_uint p) = true.
Proof.
  unfold int_part_ok. apply Decimal.internal_uint_dec_lb.
  rewrite <- Unsigned.to_of, Unsigned.of_to. reflexivity.
Qed.

Lemma parse_number_digits (p : positive) (c : ascii) (r : string) :
  closes_number c ->
  parse_number (NilEmpty.string_of_uint (Pos.to_uint p) ++ String c r)
  = Some (inject_Z (Z.pos p), String c r).
Proof.
  intros Hc. unfold parse_number.
  rewrite read_sign_digits by apply Unsigned.to_uint_nonnil.
  rewrite read_uint_print by exact Hc.
  rewrite int_part_ok_pos. simpl negb. cbv iota.
  change (N.of_uint (Pos.to_uint p)) with (Pos.of_uint (Pos.to_uint p)).
  rewrite Unsigned.of_to.
  destruct Hc as [-> | ->]; reflexivity.
Qed.

(** An integer in decimal is read back as that integer. *)
Lemma parse_number_Z (z : Z) (c : ascii) (r : string) :
  closes_number c ->
  parse_number (string_of_Z z ++ String c r) = Some (inject_Z z, String c r).
Proof.
  intros Hc. destruct z as [|p|p].
  - destruct Hc as [-> | ->]; reflexivity.
  - unfold string_of_Z. simpl Z.to_int. unfold NilZero.string_of_int, NilZero.string_of_uint.
    destruct (Pos.to_uint p) eqn:E;
      try (rewrite <- E; apply parse_number_digits; exact Hc).
    now apply Unsigned.to_uint_nonnil in E.
  - unfold string_of_Z. simpl Z.to_int.
    unfold NilZero.string_of_int, NilZero.string_of_uint.
    assert (E : forall u, u = Pos.to_uint p ->
                parse_number (String "-" (NilEmpty.string_of_uint u) ++ String c r)
                = Some (inject_Z (Z.neg p), String c r)).
    { intros u ->. unfold parse_number.
      change (read_sign (String "-" (NilEmpty.string_of_uint (Pos.to_uint p))
                         ++ String c r))
        with (true, (NilEmpty.string_of_uint (Pos.to_uint p) ++ String c r)%string).
      cbv iota.
      rewrite read_uint_print by exact Hc.
      rewrite int_part_ok_pos. simpl negb. cbv iota.
      change (N.of_uint (Pos.to_uint p)) with (Pos.of_uint (Pos.to_uint p)).
      rewrite Unsigned.of_to.
      destruct Hc as [-> | ->]; reflexivity. }
    destruct (Pos.to_uint p) eqn:E';
      try (apply E; reflexivity).
    now apply Unsigned.to_uint_nonnil in E'.
Qed.

Local Arguments parse_number : simpl never.
Local Arguments parse_chars : simpl never.

Lemma parse_value_number_head (f : nat) (c : ascii) (r : string) :
  number_head c = true ->
  parse_value (S f) (String c r)
  = match parse_number (String c r) with
    | Some (q, rest) => Some (JNum q, rest)
    | None => None
    end.
Proof.
  destruct c as [[] [] [] [] [] [] [] []]; intros H;
    try discriminate H; reflexivity.
Qed.

Lemma string_of_Z_head (z : Z) (rest : string) :
  exists c r,
    (string_of_Z z ++ rest)%string = String c r /\ number_head c = true.
Proof.
  destruct z as [|p|p]; unfold string_of_Z; simpl Z.to_int;
    unfold NilZero.string_of_int, NilZero.string_of_uint.
  - eexists _, _. split; reflexivity.
  - destruct (Pos.to_uint p) eqn:E;
      [now apply Unsigned.to_uint_nonnil in E | ..];
      eexists _, _; (split; [reflexivity | reflexivity]).
  - eexists _, _. split; reflexivity.
Qed.

(** The value of a member that is an integer. *)
Lemma parse_value_Z (f : nat) (z : Z) (c : ascii) (r : string) :
  closes_number c ->
  parse_value (S f) (String " " (string_of_Z z ++ String c r))
  = Some (JNum (inject_Z z), String c r).
Proof.
  intros Hc.
  destruct (string_of_Z_head z (String c r)) as (h & t & E & Hh).
  change (parse_value (S f) (String " " (string_of_Z z ++ String c r)))
    with (parse_value (S f) (string_of_Z z ++ String c r)).
  rewrite E, parse_value_number_head by exact Hh.
  rewrite <- E, parse_number_Z by exact Hc. reflexivity.
Qed.

(** The value of a member that is a string. *)
Lemma parse_value_quote (f : nat) (s rest : string) :
  parse_value (S f) (String " " (quote s ++ rest)) = Some (JStr s, rest).
Proof.
  destruct (parse_chars_quote s rest) as (body & E & Hb).
  rewrite E. simpl. now rewrite Hb.
Qed.

(** The key of a member, at the start of its line. *)
Lemma parse_members_key (f : nat) (key rest : string) (v : json)
    (after : string) (acc : list (string * json)) :
  parse_value f (String " " rest) = Some (v, after) ->
  parse_members (S f)
    (String newline (String " " (String " "
      (quote key ++ String ":" (String " " rest))))) acc
  = match skip_ws after with
    | String e r4 =>
        if Ascii.eqb e ","
        then parse_members f r4 ((key, v) :: acc)
        else if Ascii.eqb e "}"
        then Some (JObj (rev ((key, v) :: acc)), r4)
        else None
    | EmptyString => None
    end.
Proof.
  intros Hv.
  destruct (parse_chars_quote key (String ":" (String " " rest)))
    as (body & E & Hb).
  rewrite E. simpl. rewrite Hb. simpl.
  destruct f as [|f]; [discriminate Hv|].
  rewrite Hv. reflexivity.
Qed.

Lemma parse_value_object (f : nat) (key rest : string) :
  parse_value (S f)
    (String "{" (String newline (String " " (String " " (quote key ++ rest)))))
  = parse_members f
      (String newline (String " " (String " " (quote key ++ rest)))) [].
Proof.
  destruct (parse_chars_quote key rest) as (body & E & _).
  rewrite E. reflexivity.
Qed.

(** The value of a member that is a Number: digits, or [null]. *)
Lemma parse_value_number_text (f : nat) (n : number) (c : ascii) (r : string) :
  closes_number c ->
  parse_value (S f) (String " " (number_text n ++ String c r))
  = Some (json_of_number n, String c r).
Proof.
  intros Hc. destruct n as [z | negative].
  - now apply parse_value_Z.
  - reflexivity.
Qed.

Opaque quote string_of_Z parse_value parse_members number_text.

(** The text of a token is read back as the object of the token, with
    nothing left over. *)
Lemma parse_value_token (k : nat) (t : AuthToken) :
  parse_value (6 + k) (JSON_stringify t) = Some (json_of_token t, "").
Proof.
  change (6 + k)%nat with (S (S (S (S (S (S k)))))).
  unfold JSON_stringify. simpl.
  rewrite parse_value_object.
  erewrite parse_members_key by apply parse_value_quote. simpl.
  erewrite parse_members_key by apply parse_value_quote. simpl.
  erewrite parse_members_key by (apply parse_value_Z; now left). simpl.
  erewrite parse_members_key by (apply parse_value_Z; now right). simpl.
  reflexivity.
Qed.

Lemma parse_value_issued (k : nat) (t : IssuedToken) :
  parse_value (6 + k) (JSON_stringify_issued t) = Some (json_of_issued t, "").
Proof.
  change (6 + k)%nat with (S (S (S (S (S (S k)))))).
  unfold JSON_stringify_issued. simpl.
  rewrite parse_value_object.
  erewrite parse_members_key by apply parse_value_quote. simpl.
  erewrite parse_members_key by apply parse_value_quote. simpl.
  erewrite parse_members_key by (apply parse_value_number_text; now left).
  simpl.
  erewrite parse_members_key by (apply parse_value_number_text; now right).
  simpl.
  reflexivity.
Qed.

Transparent parse_value parse_members.

Lemma stringify_length (t : AuthToken) :
  exists n, String.length (JSON_stringify t) = S (S n).
Proof. eexists. unfold JSON_stringify. simpl. reflexivity. Qed.

Lemma stringify_issued_length (t : IssuedToken) :
  exists n, String.length (JSON_stringify_issued t) = S (S n).
Proof. eexists. unfold JSON_stringify_issued. simpl. reflexivity. Qed.

Transparent quote string_of_Z number_text.
End JSONFacts.

(** [JSON.parse(JSON.stringify(token, null, 2))] gives the token back. *)
Lemma parse_stringify (t : AuthToken) :
  JSON_parse (JSON_stringify t) = Ok (json_of_token t).
Proof.
  unfold JSON_parse.
  destruct (JSONFacts.stringify_length t) as [n ->].
  replace (2 * S (S n) + 2)%nat with (6 + 2 * n)%nat by lia.
  rewrite JSONFacts.parse_value_token. reflexivity.
Qed.

(** The same for the token of [authenticate]: an infinity comes back as
    [null]. *)
Lemma parse_stringify_issued (t : IssuedToken) :
  JSON_parse (JSON_stringify_issued t) = Ok (json_of_issued t).
Proof.
  unfold JSON_parse.
  destruct (JSONFacts.stringify_issued_length t) as [n ->].
  replace (2 * S (S n) + 2)%nat with (6 + 2 * n)%nat by lia.
  rewrite JSONFacts.parse_value_issued. reflexivity.
Qed.

(** With both numbers finite, the token of [authenticate] is written,
    read and saved as the [AuthToken] it is. *)
Lemma as_token_text (t : IssuedToken) (a : AuthToken) :
  as_token t = Some a ->
  JSON_stringify_issued t = JSON_stringify a /\
  json_of_issued t = json_of_token a.
Proof.
  unfold as_token, JSON_stringify_issued, JSON_stringify, json_of_issued,
    json_of_token.
  destruct t as [access type [lifetime | s] [stamp | s']]; simpl;
    intros H; inversion H; subst; simpl; split; reflexivity.
Qed.

Lemma saveToken_issued_as_token (fs : FS) (t : IssuedToken) (a : AuthToken) :
  as_token t = Some a -> saveToken_issued fs t = saveToken fs a.
Proof.
  intros H. unfold saveToken_issued, saveToken.
  now rewrite (proj1 (as_token_text t a H)).
Qed.

(** ** Integers as Numbers *)

(** Below [2^53] every integer is a double. *)
Lemma to_double_safe (z : Z) : Z.abs z < 2 ^ 53 -> to_double z = Finite z.
Proof.
  intros H. unfold to_double.
  assert (L : Z.log2 (Z.abs z) < 53).
  { destruct (Z.eq_dec (Z.abs z) 0) as [-> | Hz]; [reflexivity|].
    apply Z.log2_lt_pow2; lia. }
  destruct (Z.leb_spec (Z.log2 (Z.abs z) + 1 - 53) 0); [reflexivity | lia].
Qed.

(** ** What [saveToken] leaves *)

Lemma saveToken_issued_text (fs : FS) (t : IssuedToken) :
  saveToken_issued fs t = save_text fs (JSON_stringify_issued t).
Proof. reflexivity. Qed.

Ltac save_cases fs :=
  unfold save_text, ensureConfigDir, existsSync, mkdirSync, writeFileSync;
  destruct fs as [[| |old] [mk|] [wr|] rd wn]; try destruct wr; simpl.

Lemma save_text_ok (fs fs' : FS) (text : string) :
  save_text fs text = (fs', Ok tt) -> fs' = with_stored fs (File text).
Proof.
  save_cases fs; intros H; inversion H; reflexivity.
Qed.

Lemma save_text_succeeds (fs : FS) (text : string) :
  write_fault fs = None ->
  (stored fs = NoDir -> mkdir_fault fs = None) ->
  save_text fs text = (with_stored fs (File text), Ok tt).
Proof.
  save_cases fs; intros Hw Hmk; try discriminate; try reflexivity.
  discriminate (Hmk eq_refl).
Qed.

Lemma save_text_write_refused (fs : FS) (text : string) (code : errno) :
  write_fault fs = Some code ->
  exists fs' code', save_text fs text = (fs', Throw (SystemError code')).
Proof.
  save_cases fs; intros Hw; try discriminate; eauto.
Qed.

Lemma save_text_mkdir_refused (fs : FS) (text : string) (code : errno) :
  stored fs = NoDir -> mkdir_fault fs = Some code ->
  save_text fs text = (fs, Throw (SystemError code)).
Proof.
  save_cases fs; intros Hs Hm; try discriminate; inversion Hm; reflexivity.
Qed.

Lemma save_text_ok_faults (fs fs' : FS) (text : string) :
  save_text fs text = (fs', Ok tt) ->
  write_fault fs = None /\ (stored fs = NoDir -> mkdir_fault fs = None).
Proof.
  save_cases fs; intros H; inversion H; split;
    try reflexivity; intros; try discriminate; reflexivity.
Qed.

(** A save that throws: the directory could not be made and nothing has
    changed; or the file could not be opened, and only a missing directory
    has been made; or the write failed with the file open, and the file holds
    what had been put out. *)
Lemma save_text_throws (fs fs' : FS) (text : string) (e : exn) :
  save_text fs text = (fs', Throw e) ->
  (exists code, stored fs = NoDir /\ mkdir_fault fs = Some code /\
     e = SystemError code /\ fs' = fs) \/
  (exists code, write_fault fs = Some code /\ at_open code = true /\
     e = SystemError code /\
     fs' = match stored fs with NoDir => with_stored fs NoFile | _ => fs end) \/
  (exists code, write_fault fs = Some code /\ at_open code = false /\
     e = SystemError code /\
     fs' = with_stored fs (File (substring 0 (written fs) text))).
Proof.
  save_cases fs; intros H; inversion H; subst;
    first [ left; eexists; repeat split; reflexivity
          | right; left; eexists; repeat split; reflexivity
          | right; right; eexists; repeat split; reflexivity ].
Qed.

Lemma saveToken_ok (fs fs' : FS) (t : AuthToken) :
  saveToken fs t = (fs', Ok tt) ->
  fs' = with_stored fs (File (JSON_stringify t)).
Proof. apply save_text_ok. Qed.

Lemma saveToken_succeeds (fs : FS) (t : AuthToken) :
  write_fault fs = None ->
  (stored fs = NoDir -> mkdir_fault fs = None) ->
  saveToken fs t = (with_stored fs (File (JSON_stringify t)), Ok tt).
Proof. apply save_text_succeeds. Qed.

Lemma saveToken_write_refused (fs : FS) (t : AuthToken) (code : errno) :
  write_fault fs = Some code ->
  exists fs' code', saveToken fs t = (fs', Throw (SystemError code')).
Proof. apply save_text_write_refused. Qed.

Lemma saveToken_ok_faults (fs fs' : FS) (t : AuthToken) :
  saveToken fs t = (fs', Ok tt) ->
  write_fault fs = None /\ (stored fs = NoDir -> mkdir_fault fs = None).
Proof. apply save_text_ok_faults. Qed.

(** ** The expiry test on a stored token *)

Lemma expiry_test (a b c : Z) :
  Qle_bool (inject_Z a - inject_Z b) (inject_Z c) = (a - b <=? c).
Proof.
  unfold Qle_bool, Qminus, Qplus, Qopp, inject_Z; simpl.
  destruct (Z.leb_spec (a - b) c), (Z.leb_spec ((a * 1 + - b * 1) * 1) (c * 1));
    try reflexivity; lia.
Qed.

Lemma expiry_test_plain (a c : Z) :
  Qle_bool (inject_Z a) (inject_Z c) = (a <=? c).
Proof.
  unfold Qle_bool, inject_Z; simpl.
  destruct (Z.leb_spec a c), (Z.leb_spec (a * 1) (c * 1)); try reflexivity; lia.
Qed.

Section Loading.
Context {rt : Runtime}.

(** [loadToken] on the text of a token that can be read: the 60-second
    buffer decides. *)
Lemma Docs_loadToken_stored (fs : FS) (t : AuthToken) (now : Z) :
  stored fs = File (JSON_stringify t) ->
  read_fault fs = None ->
  Docs.loadToken fs now =
  if expires_at t - 60000 <=? now then Ok JNull else Ok (json_of_token t).
Proof.
  intros Hs Hr. unfold Docs.loadToken, existsSync, readFileSync.
  rewrite Hs, Hr. simpl. rewrite parse_stringify. simpl.
  rewrite expiry_test. destruct (expires_at t - 60000 <=? now); reflexivity.
Qed.

(** The same on the text of the token of [authenticate]: an infinite
    [expires_at] was written as [null], which the test takes for 0. *)
Lemma Docs_loadToken_issued (fs : FS) (t : IssuedToken) (now : Z) :
  stored fs = File (JSON_stringify_issued t) ->
  read_fault fs = None ->
  Docs.loadToken fs now =
  if match issued_expires_at t with
     | Finite stamp => stamp
     | Infinite _ => 0
     end - 60000 <=? now
  then Ok JNull else Ok (json_of_issued t).
Proof.
  intros Hs Hr. unfold Docs.loadToken, existsSync, readFileSync.
  rewrite Hs, Hr. simpl. rewrite parse_stringify_issued. simpl.
  destruct (issued_expires_at t) as [stamp | negative]; simpl.
  - rewrite expiry_test. destruct (stamp - 60000 <=? now); reflexivity.
  - change (0 - inject_Z 60000)%Q with (inject_Z 0 - inject_Z 60000)%Q.
    rewrite expiry_test. change (0 - 60000) with (-60000).
    destruct (-60000 <=? now); reflexivity.
Qed.

Lemma General_loadToken_stored (fs : FS) (t : AuthToken) (now : Z) :
  stored fs = File (JSON_stringify t) ->
  read_fault fs = None ->
  General.loadToken fs now =
  if expires_at t <=? now then Ok JNull else Ok (json_of_token t).
Proof.
  intros Hs Hr. unfold General.loadToken, existsSync, readFileSync.
  rewrite Hs, Hr. simpl. rewrite parse_stringify. simpl.
  rewrite expiry_test_plain. destruct (expires_at t <=? now); reflexivity.
Qed.

Lemma Postman_loadToken_stored (fs : FS) (t : AuthToken) (now : Z) :
  stored fs = File (JSON_stringify t) ->
  read_fault fs = None ->
  Postman.loadToken fs now =
  if expires_at t <=? now then Ok JNull else Ok (json_of_token t).
Proof.
  intros Hs Hr. unfold Postman.loadToken, existsSync, readFileSync.
  rewrite Hs, Hr. simpl. rewrite parse_stringify. simpl.
  rewrite expiry_test_plain. destruct (expires_at t <=? now); reflexivity.
Qed.

(** Whatever the file system and the clock, [loadToken] returns: every
    exception ends in its [catch]. *)
Lemma Docs_loadToken_returns (fs : FS) (now : Z) :
  exists v, Docs.loadToken fs now = Ok v.
Proof.
  unfold Docs.loadToken, try_catch.
  match goal with |- exists v, match ?b with _ => _ end = _ => destruct b end;
    eauto.
Qed.

(** Once the token is past its expiry less the buffer, [loadToken] gives
    [null] even when the file cannot be read. *)
Lemma Docs_loadToken_expired (fs : FS) (t : AuthToken) (now : Z) :
  stored fs = File (JSON_stringify t) ->
  expires_at t - 60000 <= now ->
  Docs.loadToken fs now = Ok JNull.
Proof.
  intros Hs Hle. destruct (read_fault fs) as [code|] eqn:Hr.
  - unfold Docs.loadToken, existsSync, readFileSync. rewrite Hs, Hr.
    reflexivity.
  - rewrite (Docs_loadToken_stored fs t now Hs Hr).
    destruct (Z.leb_spec (expires_at t - 60000) now); [reflexivity | lia].
Qed.
End Loading.

(** ** The token store against its specification *)

(** C1.  A token saved at time [T] (milliseconds) with a lifetime of
    [expires_in] seconds has [expires_at = T + expires_in * 1000].  With
    the buffer of 60 seconds, [loadToken] gives [null] at every clock value
    from [T + expires_in * 1000 - 60000] on, and gives the token at every
    clock value before it, the file being readable.  The scenario of the
    specification (issued at 0, 3600 seconds, read at 3539 s and at 3541 s)
    is the witness below. *)
Theorem loadToken_expiry_margin {rt : Runtime}
    (fs0 fs : FS) (t : AuthToken) (T now : Z) :
  expires_at t = T + expires_in t * 1000 ->
  saveToken fs0 t = (fs, Ok tt) ->
  (T + expires_in t * 1000 - 60000 <= now ->
   Docs.loadToken fs now = Ok JNull) /\
  (now < T + expires_in t * 1000 - 60000 ->
   read_fault fs = None ->
   Docs.loadToken fs now = Ok (json_of_token t)).
Proof.
  intros Hat Hsave. apply saveToken_ok in Hsave.
  assert (Hs : stored fs = File (JSON_stringify t)) by (subst fs; reflexivity).
  split.
  - intros Hle. apply (Docs_loadToken_expired fs t now Hs). lia.
  - intros Hlt Hr. rewrite (Docs_loadToken_stored fs t now Hs Hr).
    destruct (Z.leb_spec (expires_at t - 60000) now); [lia | reflexivity].
Qed.

Lemma loadToken_expiry_margin_scenario :
  let fs := fst (saveToken Examples.fresh Examples.hour_token) in
  @Docs.loadToken Examples.runtime fs 3539000
    = Ok (json_of_token Examples.hour_token) /\
  @Docs.loadToken Examples.runtime fs 3541000 = Ok JNull.
Proof.
  intros fs. split.
  - apply (proj2 (@loadToken_expiry_margin Examples.runtime Examples.fresh fs
                    Examples.hour_token 0 3539000 eq_refl eq_refl));
      reflexivity.
  - apply (proj1 (@loadToken_expiry_margin Examples.runtime Examples.fresh fs
                    Examples.hour_token 0 3541000 eq_refl eq_refl)).
    discriminate.
Defined.

(** C2.  [saveToken(t)] followed by [loadToken()], the clock before the
    expiry of [t] less the buffer and the file readable, returns the object
    whose four members are those of [t]. *)
Theorem save_then_load {rt : Runtime}
    (fs0 fs : FS) (t : AuthToken) (now : Z) :
  saveToken fs0 t = (fs, Ok tt) ->
  read_fault fs = None ->
  now < expires_at t - 60000 ->
  Docs.loadToken fs now = Ok (json_of_token t).
Proof.
  intros Hsave Hr Hlt. apply saveToken_ok in Hsave.
  rewrite (Docs_loadToken_stored fs t now); [| subst fs; reflexivity | exact Hr].
  destruct (Z.leb_spec (expires_at t - 60000) now); [lia | reflexivity].
Qed.

Lemma save_then_load_example :
  @Docs.loadToken Examples.runtime
    (fst (saveToken Examples.fresh Examples.other_token)) 1000
  = Ok (json_of_token Examples.other_token).
Proof.
  apply (@save_then_load Examples.runtime Examples.fresh); reflexivity.
Defined.

(** C3.  When [token.json] was never written, or holds a text that
    [JSON.parse] rejects, [loadToken] returns [null]: it does not throw, and
    the caller gets what it gets for an expired token. *)
Theorem loadToken_absent_or_corrupt {rt : Runtime} (fs : FS) (now : Z) :
  (stored fs = NoDir \/ stored fs = NoFile \/
   exists text, stored fs = File text /\ JSON_parse text = Throw SyntaxError) ->
  Docs.loadToken fs now = Ok JNull /\
  forall (fs' : FS) (t : AuthToken),
    stored fs' = File (JSON_stringify t) ->
    expires_at t - 60000 <= now ->
    Docs.loadToken fs now = Docs.loadToken fs' now.
Proof.
  intros H.
  assert (Hnull : Docs.loadToken fs now = Ok JNull).
  { unfold Docs.loadToken, existsSync, readFileSync.
    destruct H as [-> | [-> | (text & -> & Hp)]]; try reflexivity.
    destruct (read_fault fs); [reflexivity|]. simpl. rewrite Hp. reflexivity. }
  split; [exact Hnull|].
  intros fs' t Hs Hle. rewrite Hnull.
  symmetry. now apply (Docs_loadToken_expired fs' t now).
Qed.

Lemma loadToken_absent_or_corrupt_example :
  @Docs.loadToken Examples.runtime Examples.fresh 0 = Ok JNull /\
  @Docs.loadToken Examples.runtime (Examples.holding Examples.garbage) 0
    = Ok JNull.
Proof.
  split.
  - apply (@loadToken_absent_or_corrupt Examples.runtime Examples.fresh 0).
    left. reflexivity.
  - apply (@loadToken_absent_or_corrupt Examples.runtime
             (Examples.holding Examples.garbage) 0).
    right. right. exists Examples.garbage. split; reflexivity.
Defined.

(** C4, as amended.  A read of [token.json] that the operating system
    refuses is caught inside [loadToken]: the caller gets [null], as for a
    token that is absent, corrupt or expired, in each of the three clients. *)
Theorem loadToken_swallows_read_errors {rt : Runtime}
    (fs : FS) (now : Z) (code : errno) :
  read_fault fs = Some code ->
  Docs.loadToken fs now = Ok JNull /\
  General.loadToken fs now = Ok JNull /\
  Postman.loadToken fs now = Ok JNull.
Proof.
  intros Hr.
  unfold Docs.loadToken, General.loadToken, Postman.loadToken,
    existsSync, readFileSync.
  rewrite Hr. destruct (stored fs); repeat split; reflexivity.
Qed.

Lemma loadToken_swallows_read_errors_example :
  @Docs.loadToken Examples.runtime Examples.unreadable 0 = Ok JNull.
Proof.
  apply (@loadToken_swallows_read_errors Examples.runtime
           Examples.unreadable 0 EACCES).
  reflexivity.
Defined.

(** C4, as stated, fails: [token.json] holds a token good for an hour, the
    read is refused with EACCES, and [loadToken] answers [null], the very
    answer it gives when nothing was ever written. *)
Lemma read_error_not_surfaced :
  existsSync Examples.unreadable TOKEN_FILE = true /\
  readFileSync Examples.unreadable = Throw (SystemError EACCES) /\
  @Docs.loadToken Examples.runtime Examples.unreadable 0 = Ok JNull /\
  @Docs.loadToken Examples.runtime Examples.unreadable 0
  = @Docs.loadToken Examples.runtime Examples.fresh 0.
Proof. repeat split; reflexivity. Qed.

(** ** Commands without a token *)

Section Guards.
Context {rt : Runtime} {A : Type}.

Lemma Docs_getConfig_cases (env : Env) :
  (exists cfg, Docs.getConfig env = ret cfg) \/
  (exists out, Docs.getConfig env = (out, Exits 1)).
Proof.
  unfold Docs.getConfig, Docs.missing_credentials.
  destruct (MONERIS_CLIENT_ID env), (MONERIS_CLIENT_SECRET env),
    (MONERIS_MERCHANT_ID env);
    try (right; eexists; reflexivity).
  match goal with |- context [if ?b then _ else _] => destruct b end;
    [right | left]; eexists; reflexivity.
Qed.

Lemma General_getConfig_cases (env : Env) :
  (exists cfg, General.getConfig env = ret cfg) \/
  (exists out, General.getConfig env = (out, Exits 1)).
Proof.
  unfold General.getConfig, General.missing_credentials.
  destruct (MONERIS_CLIENT_ID env), (MONERIS_CLIENT_SECRET env);
    try (right; eexists; reflexivity).
  match goal with |- context [if ?b then _ else _] => destruct b end;
    [right | left]; eexists; reflexivity.
Qed.

Lemma Postman_getConfig_cases (env : Env) :
  (exists cfg, Postman.getConfig env = ret cfg) \/
  (exists out, Postman.getConfig env = (out, Exits 1)).
Proof.
  unfold Postman.getConfig, Postman.missing_credentials.
  destruct (MONERIS_CLIENT_ID env), (MONERIS_CLIENT_SECRET env);
    try (right; eexists; reflexivity).
  match goal with |- context [if ?b then _ else _] => destruct b end;
    [right | left]; eexists; reflexivity.
Qed.

Lemma Docs_with_token_refuses (rest : Docs.MonerisConfig -> json -> proc A)
    (env : Env) (fs : FS) (now : Z) :
  Docs.loadToken fs now = Ok JNull ->
  snd (Docs.with_token rest env fs now) = Exits 1 /\
  forall cfg, Docs.getConfig env = ret cfg ->
    Docs.with_token rest env fs now = refusal "moneris-cli-no-postman".
Proof.
  intros Hl. unfold Docs.with_token. rewrite Hl. split.
  - destruct (Docs_getConfig_cases env) as [[cfg ->] | [out ->]]; reflexivity.
  - intros cfg ->. reflexivity.
Qed.

Lemma General_with_token_refuses
    (rest : General.MonerisConfig -> json -> proc A)
    (env : Env) (fs : FS) (now : Z) :
  General.loadToken fs now = Ok JNull ->
  snd (General.with_token rest env fs now) = Exits 1 /\
  forall cfg, General.getConfig env = ret cfg ->
    General.with_token rest env fs now = refusal "moneris-cli-no-postman".
Proof.
  intros Hl. unfold General.with_token. rewrite Hl. split.
  - destruct (General_getConfig_cases env) as [[cfg ->] | [out ->]];
      reflexivity.
  - intros cfg ->. reflexivity.
Qed.

Lemma Postman_with_token_refuses
    (rest : Postman.MonerisConfig -> json -> proc A)
    (env : Env) (fs : FS) (now : Z) :
  Postman.loadToken fs now = Ok JNull ->
  snd (Postman.with_token rest env fs now) = Exits 1 /\
  forall cfg, Postman.getConfig env = ret cfg ->
    Postman.with_token rest env fs now = refusal "moneris-cli".
Proof.
  intros Hl. unfold Postman.with_token. rewrite Hl. split.
  - destruct (Postman_getConfig_cases env) as [[cfg ->] | [out ->]];
      reflexivity.
  - intros cfg ->. reflexivity.
Qed.
End Guards.

(** C5.  In each client, every command that needs authorization ends with
    exit status 1 when [loadToken] returns [null]; when the credentials are
    set, so that [getConfig] returns, it prints "Not authenticated" and
    "Please run: <program> auth" and nothing else.  This holds whatever the
    rest of the command is: no request to the API is made, no token is asked
    for. *)
Theorem commands_refuse_without_token {rt : Runtime} {A : Type}
    (env : Env) (fs : FS) (now : Z) :
  (Docs.loadToken fs now = Ok JNull ->
   forall rest : Docs.MonerisConfig -> json -> proc A,
     (snd (Docs.createPayment rest env fs now) = Exits 1 /\
      snd (Docs.getPayment rest env fs now) = Exits 1 /\
      snd (Docs.voidPayment rest env fs now) = Exits 1) /\
     forall cfg, Docs.getConfig env = ret cfg ->
       Docs.createPayment rest env fs now = refusal "moneris-cli-no-postman" /\
       Docs.getPayment rest env fs now = refusal "moneris-cli-no-postman" /\
       Docs.voidPayment rest env fs now = refusal "moneris-cli-no-postman") /\
  (General.loadToken fs now = Ok JNull ->
   forall rest : General.MonerisConfig -> json -> proc A,
     (snd (General.createPayment rest env fs now) = Exits 1 /\
      snd (General.listPayments rest env fs now) = Exits 1) /\
     forall cfg, General.getConfig env = ret cfg ->
       General.createPayment rest env fs now = refusal "moneris-cli-no-postman" /\
       General.listPayments rest env fs now = refusal "moneris-cli-no-postman") /\
  (Postman.loadToken fs now = Ok JNull ->
   forall rest : Postman.MonerisConfig -> json -> proc A,
     (snd (Postman.createPayment rest env fs now) = Exits 1 /\
      snd (Postman.listPayments rest env fs now) = Exits 1 /\
      snd (Postman.deleteAllPayments rest env fs now) = Exits 1) /\
     forall cfg, Postman.getConfig env = ret cfg ->
       Postman.createPayment rest env fs now = refusal "moneris-cli" /\
       Postman.listPayments rest env fs now = refusal "moneris-cli" /\
       Postman.deleteAllPayments rest env fs now = refusal "moneris-cli").
Proof.
  repeat split; intros;
    first [ now apply Docs_with_token_refuses
          | now apply General_with_token_refuses
          | now apply Postman_with_token_refuses
          | now eapply Docs_with_token_refuses; eauto
          | now eapply General_with_token_refuses; eauto
          | now eapply Postman_with_token_refuses; eauto ].
Qed.

Lemma commands_refuse_without_token_example :
  @Docs.createPayment Examples.runtime unit
    (fun _ _ => console_log "request sent") Examples.env Examples.fresh 0
  = refusal "moneris-cli-no-postman" /\
  @Postman.listPayments Examples.runtime unit
    (fun _ _ => console_log "request sent") Examples.env Examples.fresh 0
  = refusal "moneris-cli".
Proof.
  pose proof (@commands_refuse_without_token Examples.runtime unit
                Examples.env Examples.fresh 0) as (HD & _ & HP).
  split.
  - apply (proj2 (HD eq_refl (fun _ _ => console_log "request sent"))
             _ eq_refl).
  - apply (proj2 (HP eq_refl (fun _ _ => console_log "request sent"))
             _ eq_refl).
Defined.

(** C6.  [saveToken] does not fail in silence.  When the operating system
    refuses the write, or fails it with the file open, [saveToken] throws a
    system error to its caller; when [~/.moneris] is missing and cannot be
    made, it throws the error of [mkdirSync] and changes nothing; and it
    returns only when nothing was refused.  When nothing is refused it
    leaves [token.json] holding the text of the token, [expires_at]
    included, in a directory it has created if need be. *)
Theorem saveToken_surfaces_write_errors (fs : FS) (t : AuthToken) :
  (forall code, write_fault fs = Some code ->
     exists fs' code', saveToken fs t = (fs', Throw (SystemError code'))) /\
  (forall code, stored fs = NoDir -> mkdir_fault fs = Some code ->
     saveToken fs t = (fs, Throw (SystemError code))) /\
  (forall fs', saveToken fs t = (fs', Ok tt) ->
     write_fault fs = None /\ (stored fs = NoDir -> mkdir_fault fs = None)) /\
  (write_fault fs = None ->
   (stored fs = NoDir -> mkdir_fault fs = None) ->
   saveToken fs t = (with_stored fs (File (JSON_stringify t)), Ok tt) /\
   existsSync (with_stored fs (File (JSON_stringify t))) CONFIG_DIR = true /\
   (r <- JSON_parse (JSON_stringify t) ;; Get r "expires_at")
   = Ok (Val (JNum (inject_Z (expires_at t))))).
Proof.
  split; [|split; [|split]].
  - intros code Hw. now apply saveToken_write_refused with code.
  - intros code Hs Hm. now apply save_text_mkdir_refused.
  - intros fs' H. now apply saveToken_ok_faults in H.
  - intros Hw Hm. split; [now apply saveToken_succeeds|]. split; [reflexivity|].
    rewrite parse_stringify. reflexivity.
Qed.

Lemma saveToken_surfaces_write_errors_example :
  (exists fs' code',
     saveToken Examples.write_denied Examples.hour_token
     = (fs', Throw (SystemError code'))) /\
  (exists fs' code',
     saveToken MoreExamples.disk_full Examples.hour_token
     = (fs', Throw (SystemError code'))) /\
  saveToken MoreExamples.mkdir_denied Examples.hour_token
  = (MoreExamples.mkdir_denied, Throw (SystemError EACCES)) /\
  saveToken Examples.fresh Examples.hour_token
  = (Examples.holding (JSON_stringify Examples.hour_token), Ok tt).
Proof.
  split; [|split; [|split]].
  - apply (proj1 (saveToken_surfaces_write_errors Examples.write_denied
                    Examples.hour_token) EACCES eq_refl).
  - apply (proj1 (saveToken_surfaces_write_errors MoreExamples.disk_full
                    Examples.hour_token) ENOSPC eq_refl).
  - apply (proj1 (proj2 (saveToken_surfaces_write_errors
                           MoreExamples.mkdir_denied Examples.hour_token))
             EACCES eq_refl eq_refl).
  - apply (proj2 (proj2 (proj2 (saveToken_surfaces_write_errors Examples.fresh
                                  Examples.hour_token)))
             eq_refl (fun _ => eq_refl)).
Defined.

(** ** Authentication *)

Section Authentication.
Context {rt : Runtime}.

Lemma handleError_exits {A : Type} (error : exn) (context : string) :
  snd (@Docs.handleError A error context) = Exits 1.
Proof. destruct error; reflexivity. Qed.

Lemma andThen_status {B : Type} (out : list line) (m : proc B) :
  snd (said out ;;; m) = snd m.
Proof. destruct m; reflexivity. Qed.

(** [authenticate] returns only after [saveToken] has returned. *)
Lemma authenticate_returns (env : Env) (fs fs' : FS) (now : Z)
    (response : result TokenResponse) (out : list line) :
  Docs.authenticate env fs now response = (fs', (out, Returns tt)) ->
  exists data,
    response = Ok data /\
    save_text fs (JSON_stringify_issued (Docs.new_token now data))
    = (fs', Ok tt).
Proof.
  unfold Docs.authenticate.
  destruct (Docs.getConfig env) as [out0 [cfg | code | e]];
    [| discriminate | discriminate].
  destruct response as [data | error].
  - rewrite saveToken_issued_text.
    destruct (save_text fs (JSON_stringify_issued (Docs.new_token now data)))
      as [fs1 [[] | error]] eqn:Hs.
    + intros H. inversion H. subst. eauto.
    + intros H. apply (f_equal (fun x => snd (snd x))) in H. cbn [snd] in H.
      rewrite !andThen_status, handleError_exits in H. discriminate.
  - intros H. apply (f_equal (fun x => snd (snd x))) in H. cbn [snd] in H.
    rewrite !andThen_status, handleError_exits in H. discriminate.
Qed.

(** After [authenticate] has returned, the token it saved is what
    [loadToken] gives until 60 seconds before its [expires_at], and [null]
    from then on; an infinite [expires_at] counts as 0. *)
Lemma authenticate_then_load (env : Env) (fs fs' : FS) (issued now : Z)
    (data : TokenResponse) (out : list line) :
  Docs.authenticate env fs issued (Ok data) = (fs', (out, Returns tt)) ->
  read_fault fs' = None ->
  let t := Docs.new_token issued data in
  Docs.loadToken fs' now =
  if match issued_expires_at t with
     | Finite stamp => stamp
     | Infinite _ => 0
     end - 60000 <=? now
  then Ok JNull else Ok (json_of_issued t).
Proof.
  intros H Hr. apply authenticate_returns in H as (data' & E & Hs).
  inversion E; subst data'. apply save_text_ok in Hs. cbv zeta.
  apply Docs_loadToken_issued; [subst fs'; reflexivity | exact Hr].
Qed.

(** A lifetime whose milliseconds, added to the clock, stay below [2^53]
    is added without rounding. *)
Lemma new_token_exact (issued e : Z) (data : TokenResponse) :
  issued_expires_in (Docs.new_token issued data) = Finite e ->
  Z.abs (e * 1000) < 2 ^ 53 ->
  Z.abs (issued + e * 1000) < 2 ^ 53 ->
  issued_expires_at (Docs.new_token issued data) = Finite (issued + e * 1000).
Proof.
  unfold Docs.new_token; simpl. intros -> H1 H2. simpl.
  rewrite (to_double_safe _ H1). simpl. now apply to_double_safe.
Qed.

(** An infinite lifetime gives an infinite [expires_at]. *)
Lemma new_token_infinite (issued : Z) (data : TokenResponse)
    (negative : bool) :
  issued_expires_in (Docs.new_token issued data) = Infinite negative ->
  issued_expires_at (Docs.new_token issued data) = Infinite negative.
Proof. unfold Docs.new_token; simpl. intros ->. reflexivity. Qed.

(** When the write of the token is refused, [authenticate] reports the
    failure and ends with exit status 1. *)
Lemma authenticate_reports_save_error (env : Env) (fs : FS) (now : Z)
    (data : TokenResponse) (cfg : Docs.MonerisConfig) (code : errno) :
  Docs.getConfig env = ret cfg ->
  write_fault fs = Some code ->
  snd (snd (Docs.authenticate env fs now (Ok data))) = Exits 1.
Proof.
  intros Hc Hw. unfold Docs.authenticate. rewrite saveToken_issued_text.
  rewrite Hc. unfold ret.
  destruct (save_text_write_refused fs
              (JSON_stringify_issued (Docs.new_token now data)) code Hw)
    as (fs' & code' & ->).
  cbn [snd]. rewrite !andThen_status. apply handleError_exits.
Qed.
End Authentication.

(** C7, as amended.  When [authenticate] succeeds at clock value [now],
    the [expires_at] of the token it builds is [now + expires_in * 1000] in
    the arithmetic of doubles, and [token.json] holds the text of this
    token.  While the lifetime in milliseconds and its sum with the clock
    stay below [2^53], nothing is rounded: [expires_at] is the integer
    [now + expires_in * 1000], and this is what the file gives when read
    back.  When the lifetime is an infinity, so is [expires_at], and the
    file holds [null] in its place. *)
Theorem authenticate_expiry_invariant {rt : Runtime}
    (env : Env) (fs fs' : FS) (now : Z) (response : result TokenResponse)
    (out : list line) :
  Docs.authenticate env fs now response = (fs', (out, Returns tt)) ->
  exists data,
    response = Ok data /\
    let t := Docs.new_token now data in
    issued_expires_at t = clock_plus now (times_1000 (issued_expires_in t)) /\
    stored fs' = File (JSON_stringify_issued t) /\
    (r <- JSON_parse (JSON_stringify_issued t) ;; Get r "expires_at")
    = Ok (Val (json_of_number (issued_expires_at t))) /\
    (forall e,
       issued_expires_in t = Finite e ->
       Z.abs (e * 1000) < 2 ^ 53 ->
       Z.abs (now + e * 1000) < 2 ^ 53 ->
       issued_expires_at t = Finite (now + e * 1000) /\
       (r <- JSON_parse (JSON_stringify_issued t) ;; Get r "expires_at")
       = Ok (Val (JNum (inject_Z (now + e * 1000))))) /\
    (forall negative,
       issued_expires_in t = Infinite negative ->
       issued_expires_at t = Infinite negative /\
       (r <- JSON_parse (JSON_stringify_issued t) ;; Get r "expires_at")
       = Ok (Val JNull)).
Proof.
  intros H. apply authenticate_returns in H as (data & -> & Hs).
  exists data. split; [reflexivity|]. cbv zeta.
  apply save_text_ok in Hs. subst fs'.
  assert (R : (r <- JSON_parse (JSON_stringify_issued (Docs.new_token now data)) ;;
               Get r "expires_at")
              = Ok (Val (json_of_number
                           (issued_expires_at (Docs.new_token now data))))).
  { rewrite parse_stringify_issued. reflexivity. }
  split; [reflexivity|]. split; [reflexivity|]. split; [exact R|]. split.
  - intros e He H1 H2.
    pose proof (new_token_exact now e data He H1 H2) as Hat.
    split; [exact Hat|]. rewrite R, Hat. reflexivity.
  - intros negative He.
    pose proof (new_token_infinite now data negative He) as Hat.
    split; [exact Hat|]. rewrite R, Hat. reflexivity.
Qed.

Lemma authenticate_expiry_invariant_example :
  let fs' := fst (@Docs.authenticate Examples.runtime Examples.env
                    Examples.fresh 1700000000000 (Ok Examples.answer)) in
  let t := @Docs.new_token Examples.runtime 1700000000000 Examples.answer in
  issued_expires_in t = Finite 3600 /\
  issued_expires_at t = Finite (1700000000000 + 3600 * 1000) /\
  stored fs' = File (JSON_stringify_issued t) /\
  (r <- JSON_parse (JSON_stringify_issued t) ;; Get r "expires_at")
  = Ok (Val (JNum (inject_Z (1700000000000 + 3600 * 1000)))).
Proof.
  intros fs' t.
  destruct (@authenticate_expiry_invariant Examples.runtime Examples.env
              Examples.fresh fs' 1700000000000 (Ok Examples.answer) _ eq_refl)
    as (data & E & _ & Hs & _ & Hexact & _).
  inversion E; subst data.
  destruct (Hexact 3600 eq_refl eq_refl eq_refl) as [Hat Hread].
  split; [reflexivity|]. split; [exact Hat|]. split; [exact Hs | exact Hread].
Defined.

(** C7, as stated, fails.  The token endpoint answers with a lifetime of 1
    followed by 309 zeros.  [parseInt] makes an infinity of it,
    [authenticate] succeeds, and [token.json] holds [null] for [expires_at]:
    no number is persisted, and [loadToken] at the very clock value of the
    issue gives [null].  With a lifetime of ten to the sixteenth seconds
    issued at 1700000000001, the [expires_at] built and persisted is the sum
    rounded to a double, one less than [now + expires_in * 1000]. *)
Lemma huge_lifetime_breaks_invariant :
  (let now := 1700000000000 in
   let run := @Docs.authenticate MoreExamples.runtime Examples.env
                Examples.fresh now (Ok MoreExamples.endless_lifetime) in
   let t := @Docs.new_token MoreExamples.runtime now
              MoreExamples.endless_lifetime in
   snd (snd run) = Returns tt /\
   stored (fst run) = File (JSON_stringify_issued t) /\
   issued_expires_in t = Infinite false /\
   (r <- JSON_parse (JSON_stringify_issued t) ;; Get r "expires_at")
   = Ok (Val JNull) /\
   @Docs.loadToken MoreExamples.runtime (fst run) now = Ok JNull) /\
  (let now := 1700000000001 in
   let run := @Docs.authenticate MoreExamples.runtime Examples.env
                Examples.fresh now (Ok MoreExamples.long_lifetime) in
   let t := @Docs.new_token MoreExamples.runtime now
              MoreExamples.long_lifetime in
   snd (snd run) = Returns tt /\
   stored (fst run) = File (JSON_stringify_issued t) /\
   issued_expires_in t = Finite 10000000000000000 /\
   issued_expires_at t = Finite (now + 10000000000000000 * 1000 - 1) /\
   (r <- JSON_parse (JSON_stringify_issued t) ;; Get r "expires_at")
   = Ok (Val (JNum (inject_Z (now + 10000000000000000 * 1000 - 1))))).
Proof. split; cbv zeta; repeat split; vm_compute; reflexivity. Qed.

(** C8.  After [saveToken(a)] and then [saveToken(b)], the file system is
    the one [saveToken(b)] alone would have left: [token.json] holds the
    text of [b] and nothing of [a], and [loadToken] answers from [b]. *)
Theorem second_save_overwrites {rt : Runtime}
    (fs0 fs1 fs2 : FS) (a b : AuthToken) (now : Z) :
  saveToken fs0 a = (fs1, Ok tt) ->
  saveToken fs1 b = (fs2, Ok tt) ->
  stored fs2 = File (JSON_stringify b) /\
  saveToken fs0 b = (fs2, Ok tt) /\
  (read_fault fs2 = None ->
   Docs.loadToken fs2 now =
   if expires_at b - 60000 <=? now then Ok JNull else Ok (json_of_token b)).
Proof.
  intros Ha Hb.
  destruct (saveToken_ok_faults _ _ _ Ha) as [Hw Hm].
  apply saveToken_ok in Ha. apply saveToken_ok in Hb. subst fs1 fs2.
  split; [reflexivity|]. split.
  - rewrite (saveToken_succeeds fs0 b Hw Hm). reflexivity.
  - intros Hr. now apply Docs_loadToken_stored.
Qed.

Lemma second_save_overwrites_example :
  let fs1 := fst (saveToken Examples.fresh Examples.hour_token) in
  let fs2 := fst (saveToken fs1 Examples.other_token) in
  stored fs2 = File (JSON_stringify Examples.other_token) /\
  saveToken Examples.fresh Examples.other_token = (fs2, Ok tt) /\
  @Docs.loadToken Examples.runtime fs2 3600000
  = Ok (json_of_token Examples.other_token).
Proof.
  intros fs1 fs2.
  destruct (@second_save_overwrites Examples.runtime Examples.fresh fs1 fs2
              Examples.hour_token Examples.other_token 3600000
              eq_refl eq_refl) as (H1 & H2 & H3).
  split; [exact H1 | split; [exact H2 | exact (H3 eq_refl)]].
Defined.

(** C9.  The clients disagree on the buffer.  On a stored token and a
    clock value in the last 60 seconds before its [expires_at], the [Docs]
    client answers [null] and the [General] and [Postman] clients answer the
    token. *)
Theorem clients_disagree_on_buffer {rt : Runtime}
    (fs : FS) (t : AuthToken) (now : Z) :
  stored fs = File (JSON_stringify t) ->
  read_fault fs = None ->
  expires_at t - 60000 <= now < expires_at t ->
  Docs.loadToken fs now = Ok JNull /\
  General.loadToken fs now = Ok (json_of_token t) /\
  Postman.loadToken fs now = Ok (json_of_token t).
Proof.
  intros Hs Hr [Hlo Hhi].
  rewrite (Docs_loadToken_stored fs t now Hs Hr),
    (General_loadToken_stored fs t now Hs Hr),
    (Postman_loadToken_stored fs t now Hs Hr).
  destruct (Z.leb_spec (expires_at t - 60000) now); [|lia].
  destruct (Z.leb_spec (expires_at t) now); [lia|].
  repeat split.
Qed.

Lemma clients_disagree_on_buffer_example :
  let fs := Examples.holding (JSON_stringify Examples.hour_token) in
  @Docs.loadToken Examples.runtime fs 3570000 = Ok JNull /\
  @General.loadToken Examples.runtime fs 3570000
    = Ok (json_of_token Examples.hour_token) /\
  @Postman.loadToken Examples.runtime fs 3570000
    = Ok (json_of_token Examples.hour_token).
Proof.
  intros fs.
  apply (@clients_disagree_on_buffer Examples.runtime fs
           Examples.hour_token 3570000 eq_refl eq_refl).
  split; [discriminate | reflexivity].
Defined.

(** C10, as amended.  When [token.json] holds valid JSON other than
    [null] and the [expires_at] of the value is missing, or converts to NaN,
    the expiry test is false at every clock value and [loadToken] returns
    the value, in each of the three clients. *)
Theorem loadToken_without_stamp {rt : Runtime}
    (fs : FS) (now : Z) (text : string) (v : json) (stamp : jsval) :
  stored fs = File text ->
  read_fault fs = None ->
  JSON_parse text = Ok v ->
  Get v "expires_at" = Ok stamp ->
  ToNumber stamp = Ok NaN ->
  Docs.loadToken fs now = Ok v /\
  General.loadToken fs now = Ok v /\
  Postman.loadToken fs now = Ok v.
Proof.
  intros Hs Hr Hp Hg Hn.
  unfold Docs.loadToken, General.loadToken, Postman.loadToken,
    existsSync, readFileSync.
  rewrite Hs, Hr. simpl. rewrite Hp. simpl. rewrite Hg. simpl.
  rewrite Hn. repeat split.
Qed.

Lemma loadToken_without_stamp_example :
  let fs := Examples.holding Examples.no_stamp_text in
  let v := JObj [("access_token", JStr "abc")] in
  @Docs.loadToken Examples.runtime fs 1700000000000 = Ok v /\
  @General.loadToken Examples.runtime fs 1700000000000 = Ok v /\
  @Postman.loadToken Examples.runtime fs 1700000000000 = Ok v.
Proof.
  intros fs v.
  apply (@loadToken_without_stamp Examples.runtime fs 1700000000000
           Examples.no_stamp_text v Undefined);
    reflexivity.
Defined.

(** C10, as stated, fails: [token.json] holds valid JSON whose
    [expires_at] is [null], not a number; [null] converts to 0, the expiry
    test is true, and each client answers [null] instead of the object. *)
Lemma null_stamp_is_absent :
  let fs := Examples.holding Examples.null_stamp_text in
  let v := JObj [("access_token", JStr "abc"); ("expires_at", JNull)] in
  JSON_parse Examples.null_stamp_text = Ok v /\
  Get v "expires_at" = Ok (Val JNull) /\
  @Docs.loadToken Examples.runtime fs 1700000000000 = Ok JNull /\
  @General.loadToken Examples.runtime fs 1700000000000 = Ok JNull /\
  @Postman.loadToken Examples.runtime fs 1700000000000 = Ok JNull.
Proof. repeat split; reflexivity. Qed.

(** * Further properties of the clients *)

(** ** The expiry test *)

Lemma num_ge_later (now now' : Z) (x : jsnum) :
  now <= now' -> num_ge now x = true -> num_ge now' x = true.
Proof.
  intros Hle. destruct x as [| | |q]; simpl; try (intros H; exact H).
  rewrite !Qle_bool_iff. intros H.
  apply Qle_trans with (inject_Z now); [exact H|].
  rewrite <- Zle_Qle. exact Hle.
Qed.

Lemma num_ge_buffer (now : Z) (x : jsnum) :
  num_ge now x = true -> num_ge now (num_sub x 60000) = true.
Proof.
  destruct x as [| | |q]; simpl; try (intros H; exact H).
  rewrite !Qle_bool_iff. intros H.
  apply Qle_trans with q; [|exact H].
  unfold Qle, Qminus, Qplus, Qopp, inject_Z; simpl.
  destruct q as [a b]; simpl. nia.
Qed.

Section LoadingMore.
Context {rt : Runtime}.

(** What a value other than [null] returned by [loadToken] tells. *)
Lemma Docs_loadToken_inv (fs : FS) (now : Z) (v : json) :
  Docs.loadToken fs now = Ok v -> v <> JNull ->
  exists text stamp n,
    stored fs = File text /\ read_fault fs = None /\
    JSON_parse text = Ok v /\ Get v "expires_at" = Ok stamp /\
    ToNumber stamp = Ok n /\ num_ge now (num_sub n 60000) = false.
Proof.
  unfold Docs.loadToken, existsSync, readFileSync.
  destruct (stored fs) as [| |text] eqn:Hs; simpl;
    try (intros H; inversion H; congruence).
  destruct (read_fault fs) eqn:Hr; simpl;
    try (intros H; inversion H; congruence).
  destruct (JSON_parse text) as [w|] eqn:Hp; simpl;
    try (intros H; inversion H; congruence).
  destruct (Get w "expires_at") as [stamp|] eqn:Hg; simpl;
    try (intros H; inversion H; congruence).
  destruct (ToNumber stamp) as [n|] eqn:Hn; simpl;
    try (intros H; inversion H; congruence).
  destruct (num_ge now (num_sub n 60000)) eqn:Ht; simpl;
    intros H; inversion H; subst; [congruence|].
  intros _. exists text, stamp, n. repeat split; congruence.
Qed.

Lemma Docs_loadToken_eval (fs : FS) (now : Z) (text : string) (v : json)
    (stamp : jsval) (n : jsnum) :
  stored fs = File text -> read_fault fs = None ->
  JSON_parse text = Ok v -> Get v "expires_at" = Ok stamp ->
  ToNumber stamp = Ok n ->
  Docs.loadToken fs now =
  if num_ge now (num_sub n 60000) then Ok JNull else Ok v.
Proof.
  intros Hs Hr Hp Hg Hn. unfold Docs.loadToken, existsSync, readFileSync.
  rewrite Hs, Hr. simpl. rewrite Hp. simpl. rewrite Hg. simpl. rewrite Hn.
  simpl. destruct (num_ge now (num_sub n 60000)); reflexivity.
Qed.

Lemma General_loadToken_inv (fs : FS) (now : Z) (v : json) :
  General.loadToken fs now = Ok v -> v <> JNull ->
  exists text stamp n,
    stored fs = File text /\ read_fault fs = None /\
    JSON_parse text = Ok v /\ Get v "expires_at" = Ok stamp /\
    ToNumber stamp = Ok n /\ num_ge now n = false.
Proof.
  unfold General.loadToken, existsSync, readFileSync.
  destruct (stored fs) as [| |text] eqn:Hs; simpl;
    try (intros H; inversion H; congruence).
  destruct (read_fault fs) eqn:Hr; simpl;
    try (intros H; inversion H; congruence).
  destruct (JSON_parse text) as [w|] eqn:Hp; simpl;
    try (intros H; inversion H; congruence).
  destruct (Get w "expires_at") as [stamp|] eqn:Hg; simpl;
    try (intros H; inversion H; congruence).
  destruct (ToNumber stamp) as [n|] eqn:Hn; simpl;
    try (intros H; inversion H; congruence).
  destruct (num_ge now n) eqn:Ht; simpl;
    intros H; inversion H; subst; [congruence|].
  intros _. exists text, stamp, n. repeat split; congruence.
Qed.

Lemma General_loadToken_eval (fs : FS) (now : Z) (text : string) (v : json)
    (stamp : jsval) (n : jsnum) :
  stored fs = File text -> read_fault fs = None ->
  JSON_parse text = Ok v -> Get v "expires_at" = Ok stamp ->
  ToNumber stamp = Ok n ->
  General.loadToken fs now = if num_ge now n then Ok JNull else Ok v.
Proof.
  intros Hs Hr Hp Hg Hn. unfold General.loadToken, existsSync, readFileSync.
  rewrite Hs, Hr. simpl. rewrite Hp. simpl. rewrite Hg. simpl. rewrite Hn.
  simpl. destruct (num_ge now n); reflexivity.
Qed.

(** The two clients without a buffer read the token in the same way. *)
Lemma Postman_loadToken_General (fs : FS) (now : Z) :
  Postman.loadToken fs now = General.loadToken fs now.
Proof. reflexivity. Qed.

Lemma Get_not_null (v : json) (key : string) (x : jsval) :
  Get v key = Ok x -> v <> JNull.
Proof. destruct v; simpl; congruence. Qed.

Lemma General_loadToken_returns (fs : FS) (now : Z) :
  exists v, General.loadToken fs now = Ok v.
Proof.
  unfold General.loadToken, try_catch.
  match goal with |- exists v, match ?b with _ => _ end = _ => destruct b end;
    eauto.
Qed.
End LoadingMore.

Lemma json_null_dec (v : json) : {v = JNull} + {v <> JNull}.
Proof. destruct v; (left; reflexivity) || (right; discriminate). Qed.

(** ** Loading, in general *)

(** X1.  [loadToken] never throws, in any of the three clients: whatever
    the file system, the text of the file and the clock, it returns. *)
Theorem loadToken_never_throws {rt : Runtime} (fs : FS) (now : Z) :
  (exists v, Docs.loadToken fs now = Ok v) /\
  (exists v, General.loadToken fs now = Ok v) /\
  (exists v, Postman.loadToken fs now = Ok v).
Proof.
  split; [apply Docs_loadToken_returns|].
  split; [apply General_loadToken_returns|].
  exact (General_loadToken_returns fs now).
Qed.

(** X2.  Expiry is for good: with the file system unchanged, once
    [loadToken] has answered [null] it answers [null] at every later clock
    value, whatever the file holds. *)
Theorem expired_stays_expired {rt : Runtime} (fs : FS) (now now' : Z) :
  now <= now' ->
  (Docs.loadToken fs now = Ok JNull -> Docs.loadToken fs now' = Ok JNull) /\
  (General.loadToken fs now = Ok JNull ->
   General.loadToken fs now' = Ok JNull) /\
  (Postman.loadToken fs now = Ok JNull ->
   Postman.loadToken fs now' = Ok JNull).
Proof.
  intros Hle.
  assert (HG : General.loadToken fs now = Ok JNull ->
               General.loadToken fs now' = Ok JNull).
  { intros H0. destruct (General_loadToken_returns fs now') as [v Hv].
    destruct (json_null_dec v) as [-> | Hnn]; [exact Hv|].
    destruct (General_loadToken_inv fs now' v Hv Hnn)
      as (text & stamp & n & Hs & Hr & Hp & Hg & Hn & Ht).
    rewrite (General_loadToken_eval fs now text v stamp n Hs Hr Hp Hg Hn) in H0.
    destruct (num_ge now n) eqn:E.
    - rewrite (num_ge_later now now' n Hle E) in Ht. discriminate.
    - congruence. }
  split; [|split; [exact HG | exact HG]].
  intros H0. destruct (Docs_loadToken_returns fs now') as [v Hv].
  destruct (json_null_dec v) as [-> | Hnn]; [exact Hv|].
  destruct (Docs_loadToken_inv fs now' v Hv Hnn)
    as (text & stamp & n & Hs & Hr & Hp & Hg & Hn & Ht).
  rewrite (Docs_loadToken_eval fs now text v stamp n Hs Hr Hp Hg Hn) in H0.
  destruct (num_ge now (num_sub n 60000)) eqn:E.
  - rewrite (num_ge_later now now' _ Hle E) in Ht. discriminate.
  - congruence.
Qed.

Lemma expired_stays_expired_example :
  let fs := Examples.holding (JSON_stringify Examples.hour_token) in
  @Docs.loadToken Examples.runtime fs 9999999 = Ok JNull.
Proof.
  intros fs.
  apply (proj1 (@expired_stays_expired Examples.runtime fs 3540000 9999999
                  ltac:(discriminate))).
  reflexivity.
Defined.

(** X3.  The client with the buffer is never the more lenient one: a
    token it returns is returned, the same, by the two clients without a
    buffer, at the same clock value and on the same file. *)
Theorem buffered_client_is_strictest {rt : Runtime}
    (fs : FS) (now : Z) (v : json) :
  Docs.loadToken fs now = Ok v -> v <> JNull ->
  General.loadToken fs now = Ok v /\ Postman.loadToken fs now = Ok v.
Proof.
  intros Hv Hnn.
  destruct (Docs_loadToken_inv fs now v Hv Hnn)
    as (text & stamp & n & Hs & Hr & Hp & Hg & Hn & Ht).
  change (Postman.loadToken fs now) with (General.loadToken fs now).
  rewrite (General_loadToken_eval fs now text v stamp n Hs Hr Hp Hg Hn).
  destruct (num_ge now n) eqn:E; [|split; reflexivity].
  rewrite (num_ge_buffer now n E) in Ht. discriminate.
Qed.

Lemma buffered_client_is_strictest_example :
  let fs := Examples.holding (JSON_stringify Examples.hour_token) in
  @General.loadToken Examples.runtime fs 1000
    = Ok (json_of_token Examples.hour_token) /\
  @Postman.loadToken Examples.runtime fs 1000
    = Ok (json_of_token Examples.hour_token).
Proof.
  intros fs.
  apply (@buffered_client_is_strictest Examples.runtime fs 1000).
  - reflexivity.
  - discriminate.
Defined.

(** X4.  [loadToken] does not make a token up: a value other than [null]
    that it returns is what [JSON.parse] gives on the text of a
    [token.json] that exists and can be read. *)
Theorem loaded_token_is_file_content {rt : Runtime}
    (fs : FS) (now : Z) (v : json) :
  v <> JNull ->
  Docs.loadToken fs now = Ok v \/ General.loadToken fs now = Ok v \/
  Postman.loadToken fs now = Ok v ->
  exists text,
    stored fs = File text /\ read_fault fs = None /\
    JSON_parse text = Ok v.
Proof.
  intros Hnn [H | [H | H]].
  - destruct (Docs_loadToken_inv fs now v H Hnn)
      as (text & stamp & n & Hs & Hr & Hp & _). eauto.
  - destruct (General_loadToken_inv fs now v H Hnn)
      as (text & stamp & n & Hs & Hr & Hp & _). eauto.
  - change (General.loadToken fs now = Ok v) in H.
    destruct (General_loadToken_inv fs now v H Hnn)
      as (text & stamp & n & Hs & Hr & Hp & _). eauto.
Qed.

Lemma loaded_token_is_file_content_example :
  exists text,
    stored (Examples.holding (JSON_stringify Examples.hour_token))
      = File text /\
    read_fault (Examples.holding (JSON_stringify Examples.hour_token))
      = None /\
    JSON_parse text = Ok (json_of_token Examples.hour_token).
Proof.
  apply (@loaded_token_is_file_content Examples.runtime
           (Examples.holding (JSON_stringify Examples.hour_token)) 0
           (json_of_token Examples.hour_token)).
  - discriminate.
  - left. reflexivity.
Defined.

(** X5.  In the two clients without a buffer, a saved token is returned
    at every clock value before its [expires_at] and is [null] from
    [expires_at] on. *)
Theorem unbuffered_expiry_boundary {rt : Runtime}
    (fs0 fs : FS) (t : AuthToken) (now : Z) :
  saveToken fs0 t = (fs, Ok tt) ->
  read_fault fs = None ->
  (expires_at t <= now ->
   General.loadToken fs now = Ok JNull /\
   Postman.loadToken fs now = Ok JNull) /\
  (now < expires_at t ->
   General.loadToken fs now = Ok (json_of_token t) /\
   Postman.loadToken fs now = Ok (json_of_token t)).
Proof.
  intros Hsave Hr. apply saveToken_ok in Hsave.
  assert (Hs : stored fs = File (JSON_stringify t)) by (subst fs; reflexivity).
  rewrite (General_loadToken_stored fs t now Hs Hr),
    (Postman_loadToken_stored fs t now Hs Hr).
  split; intros H; destruct (Z.leb_spec (expires_at t) now);
    try lia; split; reflexivity.
Qed.

Lemma unbuffered_expiry_boundary_example :
  let fs := fst (saveToken Examples.fresh Examples.hour_token) in
  (@General.loadToken Examples.runtime fs 3600000 = Ok JNull /\
   @Postman.loadToken Examples.runtime fs 3600000 = Ok JNull) /\
  (@General.loadToken Examples.runtime fs 3599999
     = Ok (json_of_token Examples.hour_token) /\
   @Postman.loadToken Examples.runtime fs 3599999
     = Ok (json_of_token Examples.hour_token)).
Proof.
  intros fs. split.
  - apply (proj1 (@unbuffered_expiry_boundary Examples.runtime Examples.fresh
                    fs Examples.hour_token 3600000 eq_refl eq_refl)).
    discriminate.
  - apply (proj2 (@unbuffered_expiry_boundary Examples.runtime Examples.fresh
                    fs Examples.hour_token 3599999 eq_refl eq_refl)).
    reflexivity.
Defined.

(** ** The text of a token *)

Lemma json_of_token_inj (t t' : AuthToken) :
  json_of_token t = json_of_token t' -> t = t'.
Proof.
  destruct t as [a b c d], t' as [a' b' c' d']. unfold json_of_token; simpl.
  intros H. inversion H. reflexivity.
Qed.

(** X6.  The text [saveToken] writes determines the token: two tokens with
    the same text are the same token, and the text of a token is read back
    by [JSON.parse] as the object of that token. *)
Theorem token_text_determines_token (t t' : AuthToken) :
  JSON_stringify t = JSON_stringify t' ->
  t = t' /\ JSON_parse (JSON_stringify t) = Ok (json_of_token t').
Proof.
  intros H. assert (E : t = t').
  { apply json_of_token_inj.
    pose proof (parse_stringify t) as P. rewrite H, parse_stringify in P.
    congruence. }
  split; [exact E|]. subst t'. apply parse_stringify.
Qed.

Lemma token_text_determines_token_example :
  Examples.hour_token = Examples.hour_token /\
  JSON_parse (JSON_stringify Examples.hour_token)
  = Ok (json_of_token Examples.hour_token).
Proof.
  apply (token_text_determines_token Examples.hour_token Examples.hour_token).
  reflexivity.
Defined.

(** ** Saving, in general *)

(** X7.  [saveToken] returns exactly when the operating system refuses
    neither the write nor, if [~/.moneris] is missing, the creation of the
    directory; otherwise it throws. *)
Theorem saveToken_returns_iff (fs : FS) (t : AuthToken) :
  snd (saveToken fs t) = Ok tt <->
  write_fault fs = None /\ (stored fs = NoDir -> mkdir_fault fs = None).
Proof.
  split.
  - destruct (saveToken fs t) as [fs' [[]|e]] eqn:E; simpl; [|discriminate].
    intros _. exact (saveToken_ok_faults fs fs' t E).
  - intros [Hw Hm]. now rewrite (saveToken_succeeds fs t Hw Hm).
Qed.

(** X8.  A save that fails because [token.json] cannot be opened for
    writing does not harm the token already stored: the file system is left
    as it was.  A save that fails with the file open leaves in [token.json]
    what the write had put out, and the token stored before is lost.  In
    both cases the error thrown is the system error of the write. *)
Theorem failed_save_keeps_stored_token (fs fs' : FS) (t : AuthToken)
    (e : exn) (text : string) :
  stored fs = File text ->
  saveToken fs t = (fs', Throw e) ->
  exists code,
    e = SystemError code /\ write_fault fs = Some code /\
    fs' = if at_open code then fs
          else with_stored fs
                 (File (substring 0 (written fs) (JSON_stringify t))).
Proof.
  intros Hs H. apply save_text_throws in H.
  destruct H as [(code & Hn & _) | [(code & Hw & Ha & -> & ->)
                                   | (code & Hw & Ha & -> & ->)]].
  - rewrite Hs in Hn. discriminate.
  - exists code. rewrite Ha, Hs. repeat split. exact Hw.
  - exists code. rewrite Ha. repeat split. exact Hw.
Qed.

Lemma failed_save_keeps_stored_token_example :
  let fs := {| stored := File (JSON_stringify Examples.hour_token);
               mkdir_fault := None; write_fault := Some EROFS;
               read_fault := None; written := 0 |} in
  (exists code,
     SystemError EROFS = SystemError code /\ write_fault fs = Some code /\
     fst (saveToken fs Examples.other_token)
     = if at_open code then fs
       else with_stored fs
              (File (substring 0 (written fs)
                       (JSON_stringify Examples.other_token)))) /\
  (exists code,
     SystemError ENOSPC = SystemError code /\
     write_fault MoreExamples.disk_full = Some code /\
     fst (saveToken MoreExamples.disk_full Examples.other_token)
     = if at_open code then MoreExamples.disk_full
       else with_stored MoreExamples.disk_full
              (File (substring 0 (written MoreExamples.disk_full)
                       (JSON_stringify Examples.other_token)))).
Proof.
  intros fs. split.
  - apply (failed_save_keeps_stored_token fs _ Examples.other_token
             (SystemError EROFS) (JSON_stringify Examples.hour_token));
      reflexivity.
  - apply (failed_save_keeps_stored_token MoreExamples.disk_full _
             Examples.other_token (SystemError ENOSPC)
             (JSON_stringify Examples.hour_token));
      reflexivity.
Defined.

(** X9.  [ensureConfigDir] leaves an existing [~/.moneris] and its
    [token.json] untouched; when it returns the directory exists, and a
    second call changes nothing. *)
Theorem ensureConfigDir_idempotent (fs fs' : FS) :
  ensureConfigDir fs = (fs', Ok tt) ->
  existsSync fs' CONFIG_DIR = true /\
  ensureConfigDir fs' = (fs', Ok tt) /\
  (existsSync fs CONFIG_DIR = true -> fs' = fs) /\
  existsSync fs' TOKEN_FILE = existsSync fs TOKEN_FILE.
Proof.
  unfold ensureConfigDir, existsSync, mkdirSync.
  destruct fs as [st mk wr rd wn]; simpl.
  destruct st, mk; simpl; intros H; inversion H; subst; simpl;
    repeat split; try reflexivity; discriminate.
Qed.

Lemma ensureConfigDir_idempotent_example :
  let fs' := fst (ensureConfigDir Examples.fresh) in
  existsSync fs' CONFIG_DIR = true /\
  ensureConfigDir fs' = (fs', Ok tt) /\
  (existsSync Examples.fresh CONFIG_DIR = true -> fs' = Examples.fresh) /\
  existsSync fs' TOKEN_FILE = existsSync Examples.fresh TOKEN_FILE.
Proof.
  intros fs'.
  apply (ensureConfigDir_idempotent Examples.fresh fs'). reflexivity.
Defined.

(** ** Configuration *)

(** A variable of the environment that is set to a text that is not
    empty. *)
Lemma getConfig_Docs_iff (env : Env) :
  (exists cfg, Docs.getConfig env = ret cfg) <->
  (exists id secret merchant,
     MONERIS_CLIENT_ID env = Some id /\ id <> "" /\
     MONERIS_CLIENT_SECRET env = Some secret /\ secret <> "" /\
     MONERIS_MERCHANT_ID env = Some merchant /\ merchant <> "").
Proof.
  unfold Docs.getConfig, Docs.missing_credentials.
  destruct (MONERIS_CLIENT_ID env) as [id|],
    (MONERIS_CLIENT_SECRET env) as [secret|],
    (MONERIS_MERCHANT_ID env) as [merchant|];
    try (split; [intros [cfg H]; discriminate H
                | intros (a & b & c & H1 & _ & H2 & _ & H3 & _); discriminate]).
  destruct (String.eqb_spec id ""), (String.eqb_spec secret ""),
    (String.eqb_spec merchant ""); simpl;
    (split;
     [ intros [cfg H]; try discriminate H;
       exists id, secret, merchant; repeat split; assumption
     | intros (a & b & c & H1 & N1 & H2 & N2 & H3 & N3);
       inversion H1; inversion H2; inversion H3; subst;
       try contradiction; eexists; reflexivity ]).
Qed.

Lemma getConfig_General_iff (env : Env) :
  (exists cfg, General.getConfig env = ret cfg) <->
  (exists id secret,
     MONERIS_CLIENT_ID env = Some id /\ id <> "" /\
     MONERIS_CLIENT_SECRET env = Some secret /\ secret <> "").
Proof.
  unfold General.getConfig, General.missing_credentials.
  destruct (MONERIS_CLIENT_ID env) as [id|],
    (MONERIS_CLIENT_SECRET env) as [secret|];
    try (split; [intros [cfg H]; discriminate H
                | intros (a & b & H1 & _ & H2 & _); discriminate]).
  destruct (String.eqb_spec id ""), (String.eqb_spec secret ""); simpl;
    (split;
     [ intros [cfg H]; try discriminate H;
       exists id, secret; repeat split; assumption
     | intros (a & b & H1 & N1 & H2 & N2);
       inversion H1; inversion H2; subst;
       try contradiction; eexists; reflexivity ]).
Qed.

Lemma getConfig_Postman_iff (env : Env) :
  (exists cfg, Postman.getConfig env = ret cfg) <->
  (exists id secret,
     MONERIS_CLIENT_ID env = Some id /\ id <> "" /\
     MONERIS_CLIENT_SECRET env = Some secret /\ secret <> "").
Proof.
  unfold Postman.getConfig, Postman.missing_credentials.
  destruct (MONERIS_CLIENT_ID env) as [id|],
    (MONERIS_CLIENT_SECRET env) as [secret|];
    try (split; [intros [cfg H]; discriminate H
                | intros (a & b & H1 & _ & H2 & _); discriminate]).
  destruct (String.eqb_spec id ""), (String.eqb_spec secret ""); simpl;
    (split;
     [ intros [cfg H]; try discriminate H;
       exists id, secret; repeat split; assumption
     | intros (a & b & H1 & N1 & H2 & N2);
       inversion H1; inversion H2; subst;
       try contradiction; eexists; reflexivity ]).
Qed.

(** X10.  [getConfig] returns, printing nothing, exactly when the client
    identifier and the client secret are set and not empty, and in the
    [Docs] client the merchant identifier too; in every other case it
    prints the list of variables and ends the process with status 1.  So
    an environment that suits the [Docs] client suits the other two. *)
Theorem getConfig_needs_credentials (env : Env) :
  ((exists cfg, Docs.getConfig env = ret cfg) \/
   Docs.getConfig env = @Docs.missing_credentials Docs.MonerisConfig) /\
  ((exists cfg, General.getConfig env = ret cfg) \/
   General.getConfig env = @General.missing_credentials General.MonerisConfig) /\
  ((exists cfg, Postman.getConfig env = ret cfg) \/
   Postman.getConfig env = @Postman.missing_credentials Postman.MonerisConfig) /\
  ((exists cfg, Docs.getConfig env = ret cfg) <->
   (exists id secret merchant,
      MONERIS_CLIENT_ID env = Some id /\ id <> "" /\
      MONERIS_CLIENT_SECRET env = Some secret /\ secret <> "" /\
      MONERIS_MERCHANT_ID env = Some merchant /\ merchant <> "")) /\
  ((exists cfg, General.getConfig env = ret cfg) <->
   (exists id secret,
      MONERIS_CLIENT_ID env = Some id /\ id <> "" /\
      MONERIS_CLIENT_SECRET env = Some secret /\ secret <> "")) /\
  ((exists cfg, Postman.getConfig env = ret cfg) <->
   (exists id secret,
      MONERIS_CLIENT_ID env = Some id /\ id <> "" /\
      MONERIS_CLIENT_SECRET env = Some secret /\ secret <> "")).
Proof.
  split; [|split; [|split; [|split; [|split]]]].
  - unfold Docs.getConfig.
    destruct (MONERIS_CLIENT_ID env), (MONERIS_CLIENT_SECRET env),
      (MONERIS_MERCHANT_ID env); try (right; reflexivity).
    match goal with |- context [if ?b then _ else _] => destruct b end;
      [right; reflexivity | left; eexists; reflexivity].
  - unfold General.getConfig.
    destruct (MONERIS_CLIENT_ID env), (MONERIS_CLIENT_SECRET env);
      try (right; reflexivity).
    match goal with |- context [if ?b then _ else _] => destruct b end;
      [right; reflexivity | left; eexists; reflexivity].
  - unfold Postman.getConfig.
    destruct (MONERIS_CLIENT_ID env), (MONERIS_CLIENT_SECRET env);
      try (right; reflexivity).
    match goal with |- context [if ?b then _ else _] => destruct b end;
      [right; reflexivity | left; eexists; reflexivity].
  - apply getConfig_Docs_iff.
  - apply getConfig_General_iff.
  - apply getConfig_Postman_iff.
Qed.

(** ** Commands and the token file *)

Section CommandsMore.
Context {rt : Runtime}.

(** On a readable file whose text parses to a falsy value, [loadToken]
    returns a falsy value. *)
Lemma Docs_loadToken_falsy (fs : FS) (now : Z) (text : string) (v : json) :
  stored fs = File text -> read_fault fs = None ->
  JSON_parse text = Ok v -> ToBoolean v = false ->
  exists w, Docs.loadToken fs now = Ok w /\ ToBoolean w = false.
Proof.
  intros Hs Hr Hp Hf. unfold Docs.loadToken, existsSync, readFileSync.
  rewrite Hs, Hr. simpl. rewrite Hp. simpl.
  destruct v; simpl in *; try discriminate; eauto.
Qed.

Lemma General_loadToken_falsy (fs : FS) (now : Z) (text : string) (v : json) :
  stored fs = File text -> read_fault fs = None ->
  JSON_parse text = Ok v -> ToBoolean v = false ->
  exists w, General.loadToken fs now = Ok w /\ ToBoolean w = false.
Proof.
  intros Hs Hr Hp Hf. unfold General.loadToken, existsSync, readFileSync.
  rewrite Hs, Hr. simpl. rewrite Hp. simpl.
  destruct v; simpl in *; try discriminate; eauto.
Qed.
End CommandsMore.

(** X11.  A [token.json] that holds valid JSON for a falsy value ([null],
    [false], [0] or the empty string) is no token: in each client a command
    that needs authorization prints the two lines of its guard and ends
    with status 1, at every clock value, without running the rest. *)
Theorem falsy_file_is_refused {rt : Runtime} {A : Type}
    (env : Env) (fs : FS) (now : Z) (text : string) (v : json) :
  stored fs = File text -> read_fault fs = None ->
  JSON_parse text = Ok v -> ToBoolean v = false ->
  (forall cfg rest, Docs.getConfig env = ret cfg ->
     @Docs.with_token rt A rest env fs now = refusal "moneris-cli-no-postman") /\
  (forall cfg rest, General.getConfig env = ret cfg ->
     @General.with_token rt A rest env fs now
     = refusal "moneris-cli-no-postman") /\
  (forall cfg rest, Postman.getConfig env = ret cfg ->
     @Postman.with_token rt A rest env fs now = refusal "moneris-cli").
Proof.
  intros Hs Hr Hp Hf.
  destruct (Docs_loadToken_falsy fs now text v Hs Hr Hp Hf) as (w & Hw & Fw).
  destruct (General_loadToken_falsy fs now text v Hs Hr Hp Hf)
    as (w' & Hw' & Fw').
  repeat split; intros cfg rest Hc.
  - unfold Docs.with_token. rewrite Hc, Hw. simpl. rewrite Fw. reflexivity.
  - unfold General.with_token. rewrite Hc, Hw'. simpl. rewrite Fw'.
    reflexivity.
  - unfold Postman.with_token.
    change (Postman.loadToken fs now) with (General.loadToken fs now).
    rewrite Hc, Hw'. simpl. rewrite Fw'. reflexivity.
Qed.

Lemma falsy_file_is_refused_example :
  @Docs.with_token Examples.runtime unit
    (fun _ _ => console_log "request sent") Examples.env
    (Examples.holding "0") 1700000000000
  = refusal "moneris-cli-no-postman".
Proof.
  apply (proj1 (@falsy_file_is_refused Examples.runtime unit Examples.env
                  (Examples.holding "0") 1700000000000 "0" (JNum 0)
                  eq_refl eq_refl eq_refl eq_refl) _ _ eq_refl).
Defined.

(** X12.  A [token.json] that holds a JSON object without [expires_at]
    never expires: in each client a command that needs authorization runs
    its rest with that object as the token, at every clock value. *)
Theorem unstamped_object_is_accepted {rt : Runtime} {A : Type}
    (env : Env) (fs : FS) (now : Z) (text : string)
    (members : list (string * json)) :
  stored fs = File text -> read_fault fs = None ->
  JSON_parse text = Ok (JObj members) ->
  lookup_member "expires_at" members = Undefined ->
  (forall cfg rest, Docs.getConfig env = ret cfg ->
     @Docs.with_token rt A rest env fs now = rest cfg (JObj members)) /\
  (forall cfg rest, General.getConfig env = ret cfg ->
     @General.with_token rt A rest env fs now = rest cfg (JObj members)) /\
  (forall cfg rest, Postman.getConfig env = ret cfg ->
     @Postman.with_token rt A rest env fs now = rest cfg (JObj members)).
Proof.
  intros Hs Hr Hp Hm.
  assert (HD : Docs.loadToken fs now = Ok (JObj members)).
  { rewrite (Docs_loadToken_eval fs now text (JObj members) Undefined NaN);
      try assumption; try reflexivity. simpl. now rewrite Hm. }
  assert (HG : General.loadToken fs now = Ok (JObj members)).
  { rewrite (General_loadToken_eval fs now text (JObj members) Undefined NaN);
      try assumption; try reflexivity. simpl. now rewrite Hm. }
  repeat split; intros cfg rest Hc.
  - unfold Docs.with_token. rewrite Hc, HD. simpl.
    destruct (rest cfg (JObj members)); reflexivity.
  - unfold General.with_token. rewrite Hc, HG. simpl.
    destruct (rest cfg (JObj members)); reflexivity.
  - unfold Postman.with_token.
    change (Postman.loadToken fs now) with (General.loadToken fs now).
    rewrite Hc, HG. simpl. destruct (rest cfg (JObj members)); reflexivity.
Qed.

Lemma unstamped_object_is_accepted_example :
  @Postman.with_token Examples.runtime unit
    (fun _ _ => console_log "request sent") Examples.env
    (Examples.holding Examples.no_stamp_text) 9999999999999
  = console_log "request sent".
Proof.
  apply (proj2 (proj2
           (@unstamped_object_is_accepted Examples.runtime unit Examples.env
              (Examples.holding Examples.no_stamp_text) 9999999999999
              Examples.no_stamp_text [("access_token", JStr "abc")]
              eq_refl eq_refl eq_refl eq_refl)) _
           (fun _ _ => console_log "request sent") eq_refl).
Defined.

(** X13.  A session.  After [authenticate] has returned at clock value
    [issued], the commands of the same client read the token it saved, the
    file being readable.  While the [expires_at] built is a finite [stamp]
    and the clock is before [stamp - 60000], a command prints nothing of its
    own and runs its rest with the token [authenticate] built; [stamp] is
    [issued + expires_in * 1000] as long as the lifetime in milliseconds and
    that sum stay below [2^53].  When the [expires_at] built is an infinity,
    the file holds [null] in its place, and from clock value -60000 on every
    command refuses as it does without a token. *)
Theorem authenticate_then_command {rt : Runtime} {A : Type}
    (env : Env) (fs fs' : FS) (issued now : Z) (data : TokenResponse)
    (out : list line) (cfg : Docs.MonerisConfig)
    (rest : Docs.MonerisConfig -> json -> proc A) :
  Docs.authenticate env fs issued (Ok data) = (fs', (out, Returns tt)) ->
  Docs.getConfig env = ret cfg ->
  read_fault fs' = None ->
  let t := Docs.new_token issued data in
  let all_give := fun answer : proc A =>
    Docs.createPayment rest env fs' now = answer /\
    Docs.getPayment rest env fs' now = answer /\
    Docs.voidPayment rest env fs' now = answer in
  (forall stamp,
     issued_expires_at t = Finite stamp ->
     now < stamp - 60000 ->
     all_give (rest cfg (json_of_issued t))) /\
  (forall e,
     issued_expires_in t = Finite e ->
     Z.abs (e * 1000) < 2 ^ 53 ->
     Z.abs (issued + e * 1000) < 2 ^ 53 ->
     now < issued + e * 1000 - 60000 ->
     all_give (rest cfg (json_of_issued t))) /\
  (forall negative,
     issued_expires_at t = Infinite negative ->
     -60000 <= now ->
     all_give (refusal "moneris-cli-no-postman")).
Proof.
  intros Ha Hc Hr t all_give.
  pose proof (authenticate_then_load env fs fs' issued now data out Ha Hr) as Hl.
  cbv zeta in Hl. fold t in Hl.
  assert (Finite_case : forall stamp,
            issued_expires_at t = Finite stamp -> now < stamp - 60000 ->
            all_give (rest cfg (json_of_issued t))).
  { intros stamp Hat Hlt. rewrite Hat in Hl.
    destruct (Z.leb_spec (stamp - 60000) now); [lia|].
    unfold all_give, Docs.createPayment, Docs.getPayment, Docs.voidPayment,
      Docs.with_token.
    rewrite Hc, Hl. simpl. destruct (rest cfg (json_of_issued t)).
    repeat split. }
  split; [exact Finite_case|]. split.
  - intros e He H1 H2 Hlt.
    apply (Finite_case (issued + e * 1000)); [|exact Hlt].
    now apply new_token_exact.
  - intros negative Hat Hle. rewrite Hat in Hl.
    destruct (Z.leb_spec (0 - 60000) now); [|lia].
    unfold all_give, Docs.createPayment, Docs.getPayment, Docs.voidPayment.
    pose proof (proj2 (@Docs_with_token_refuses rt A rest env fs' now Hl)
                  cfg Hc) as Hrefuse.
    repeat split; exact Hrefuse.
Qed.

Lemma authenticate_then_command_example :
  (let fs' := fst (@Docs.authenticate Examples.runtime Examples.env
                     Examples.fresh 0 (Ok Examples.answer)) in
   @Docs.createPayment Examples.runtime unit
     (fun _ token => console_log "request sent") Examples.env fs' 3539000
   = console_log "request sent") /\
  (let fs' := fst (@Docs.authenticate MoreExamples.runtime Examples.env
                     Examples.fresh 1700000000000
                     (Ok MoreExamples.endless_lifetime)) in
   @Docs.createPayment MoreExamples.runtime unit
     (fun _ token => console_log "request sent") Examples.env fs'
     1700000000000
   = refusal "moneris-cli-no-postman").
Proof.
  split; intros fs'.
  - apply (proj1 (proj2
             (@authenticate_then_command Examples.runtime unit Examples.env
                Examples.fresh fs' 0 3539000 Examples.answer _
                MoreExamples.sandbox_config
                (fun _ _ => console_log "request sent")
                eq_refl eq_refl eq_refl)) 3600);
      reflexivity.
  - apply (proj2 (proj2
             (@authenticate_then_command MoreExamples.runtime unit
                Examples.env Examples.fresh fs' 1700000000000 1700000000000
                MoreExamples.endless_lifetime _ MoreExamples.sandbox_config
                (fun _ _ => console_log "request sent")
                eq_refl eq_refl eq_refl)) false).
    + vm_compute. reflexivity.
    + discriminate.
Defined.

(** ** Authentication, in general *)

Lemma save_text_status_any_text (fs : FS) (text text' : string) :
  snd (save_text fs text) = snd (save_text fs text').
Proof. save_cases fs; reflexivity. Qed.

(** X14.  [authenticate] does not print the access token: what it prints
    and how it ends are the same for two answers of the token endpoint
    that differ in the access token only. *)
Theorem authenticate_hides_access_token {rt : Runtime}
    (env : Env) (fs : FS) (now : Z) (d d' : TokenResponse) :
  data_token_type d = data_token_type d' ->
  data_expires_in d = data_expires_in d' ->
  snd (Docs.authenticate env fs now (Ok d))
  = snd (Docs.authenticate env fs now (Ok d')).
Proof.
  intros Ht He. unfold Docs.authenticate.
  destruct (Docs.getConfig env) as [out0 [cfg | code | e]]; try reflexivity.
  rewrite !saveToken_issued_text.
  pose proof (save_text_status_any_text fs
                (JSON_stringify_issued (Docs.new_token now d))
                (JSON_stringify_issued (Docs.new_token now d'))) as Hs.
  destruct (save_text fs (JSON_stringify_issued (Docs.new_token now d)))
    as [f1 r1],
    (save_text fs (JSON_stringify_issued (Docs.new_token now d')))
    as [f2 r2].
  simpl in Hs. subst r2. destruct r1 as [[]|err]; cbn [snd]; [|reflexivity].
  unfold Docs.new_token, Docs.lifetime; simpl. rewrite Ht, He. reflexivity.
Qed.

Lemma authenticate_hides_access_token_example :
  snd (@Docs.authenticate Examples.runtime Examples.env Examples.fresh 0
         (Ok Examples.answer))
  = snd (@Docs.authenticate Examples.runtime Examples.env Examples.fresh 0
           (Ok {| data_access_token := "another secret";
                  data_token_type := Some "Bearer";
                  data_expires_in := Val (JNum 3600) |})).
Proof.
  apply (@authenticate_hides_access_token Examples.runtime); reflexivity.
Defined.

(** X15.  [authenticate] ends in one of two ways, and no exception leaves
    it.  Either it returns, the endpoint has answered and [token.json]
    holds the text of the new token; or the process ends with status 1.  In
    the second case a [~/.moneris] that was there before is left as it was,
    the token it held included, with one exception: the credentials were
    set, the endpoint answered, and the write of the new token failed with
    [token.json] already open.  Then the file holds what the write had put
    out of the new text, and the token stored before is lost. *)
Theorem authenticate_ends_cleanly {rt : Runtime}
    (env : Env) (fs fs' : FS) (now : Z) (response : result TokenResponse)
    (out : list line) (st : status unit) :
  Docs.authenticate env fs now response = (fs', (out, st)) ->
  (st = Returns tt /\
   exists data, response = Ok data /\
     stored fs' = File (JSON_stringify_issued (Docs.new_token now data))) \/
  (st = Exits 1 /\
   (existsSync fs CONFIG_DIR = true ->
    fs' = fs \/
    exists cfg data code,
      Docs.getConfig env = ret cfg /\ response = Ok data /\
      write_fault fs = Some code /\ at_open code = false /\
      fs' = with_stored fs
              (File (substring 0 (written fs)
                       (JSON_stringify_issued (Docs.new_token now data)))))).
Proof.
  unfold Docs.authenticate.
  destruct (Docs_getConfig_cases env) as [[cfg Hc] | [out0 ->]].
  - rewrite Hc. unfold ret. destruct response as [data | error].
    + rewrite saveToken_issued_text.
      destruct (save_text fs (JSON_stringify_issued (Docs.new_token now data)))
        as [fs1 [[] | error]] eqn:Hs; intros H;
        pose proof (f_equal fst H) as Hf;
        pose proof (f_equal (fun x => snd (snd x)) H) as Hst;
        cbn [fst snd] in Hf, Hst; subst fs' st.
      * left. split.
        -- unfold console_log. rewrite !andThen_status. reflexivity.
        -- exists data. split; [reflexivity|].
           apply save_text_ok in Hs. subst fs1. reflexivity.
      * right. split.
        -- rewrite !andThen_status. apply handleError_exits.
        -- intros Hd. apply save_text_throws in Hs.
           destruct Hs as [(code & Hn & _)
                          | [(code & Hw & Ha & _ & ->)
                            | (code & Hw & Ha & _ & ->)]].
           ++ unfold existsSync in Hd. rewrite Hn in Hd. discriminate.
           ++ left. unfold existsSync in Hd.
              destruct (stored fs); [discriminate | reflexivity ..].
           ++ right. exists cfg, data, code. repeat split; assumption.
    + intros H.
      pose proof (f_equal fst H) as Hf;
        pose proof (f_equal (fun x => snd (snd x)) H) as Hst;
        cbn [fst snd] in Hf, Hst; subst fs' st.
      right. split.
      * rewrite !andThen_status. apply handleError_exits.
      * intros _. left. reflexivity.
  - intros H. inversion H; subst. right. split; [reflexivity|].
    intros _. left. reflexivity.
Qed.

Lemma authenticate_ends_cleanly_example :
  (let fs := Examples.holding (JSON_stringify Examples.hour_token) in
   let r := @Docs.authenticate Examples.runtime Examples.env fs 5000
              (Throw (AxiosError ["HTTP Status: 401"])) in
   snd (snd r) = Exits 1 /\ fst r = fs) /\
  (let r := @Docs.authenticate Examples.runtime Examples.env
              MoreExamples.disk_full 5000 (Ok Examples.answer) in
   snd (snd r) = Exits 1 /\
   fst r = with_stored MoreExamples.disk_full (File "")).
Proof.
  split.
  - intros fs r.
    destruct (@authenticate_ends_cleanly Examples.runtime Examples.env fs
                (fst r) 5000 (Throw (AxiosError ["HTTP Status: 401"]))
                (fst (snd r)) (snd (snd r)) eq_refl)
      as [[H _] | [H1 H2]].
    + discriminate H.
    + split; [exact H1|].
      destruct (H2 eq_refl) as [H | (cfg & data & code & _ & E & _)];
        [exact H | discriminate E].
  - intros r.
    destruct (@authenticate_ends_cleanly Examples.runtime Examples.env
                MoreExamples.disk_full (fst r) 5000 (Ok Examples.answer)
                (fst (snd r)) (snd (snd r)) eq_refl)
      as [[H _] | [H1 H2]].
    + discriminate H.
    + split; [exact H1|]. reflexivity.
Defined.

(** X16.  When the answer of the token endpoint gives no usable lifetime
    ([parseInt] of its [expires_in] is NaN or 0), the token is good for an
    hour: its [expires_in] is 3600, and after [authenticate] has returned at
    a clock value [issued] with [issued + 3600000] below [2^53], as it is
    for every value of [Date.now()], [loadToken] gives the token until
    [issued + 3540000] and [null] from then on. *)
Theorem authenticate_default_lifetime {rt : Runtime}
    (env : Env) (fs fs' : FS) (issued now : Z) (data : TokenResponse)
    (out : list line) :
  Docs.authenticate env fs issued (Ok data) = (fs', (out, Returns tt)) ->
  parseInt (data_expires_in data) = None \/
  parseInt (data_expires_in data) = Some 0 ->
  read_fault fs' = None ->
  issued_expires_in (Docs.new_token issued data) = Finite 3600 /\
  (Z.abs (issued + 3600000) < 2 ^ 53 ->
   Docs.loadToken fs' now =
   if issued + 3540000 <=? now then Ok JNull
   else Ok (json_of_issued (Docs.new_token issued data))).
Proof.
  intros Ha Hp Hr.
  assert (E : issued_expires_in (Docs.new_token issued data) = Finite 3600).
  { unfold Docs.new_token, Docs.lifetime; simpl.
    destruct Hp as [-> | ->]; reflexivity. }
  split; [exact E|]. intros Hclock.
  pose proof (authenticate_then_load env fs fs' issued now data out Ha Hr) as Hl.
  cbv zeta in Hl.
  rewrite (new_token_exact issued 3600 data E) in Hl;
    [| reflexivity | exact Hclock].
  replace (issued + 3600 * 1000 - 60000) with (issued + 3540000) in Hl by lia.
  exact Hl.
Qed.

Lemma authenticate_default_lifetime_example :
  let bare := {| data_access_token := "eyJhbGciOi";
                 data_token_type := None;
                 data_expires_in := Undefined |} in
  let fs' := fst (@Docs.authenticate Examples.runtime Examples.env
                    Examples.fresh 1000 (Ok bare)) in
  issued_expires_in (@Docs.new_token Examples.runtime 1000 bare)
  = Finite 3600 /\
  @Docs.loadToken Examples.runtime fs' 3541000 =
  if 1000 + 3540000 <=? 3541000 then Ok JNull
  else Ok (json_of_issued (@Docs.new_token Examples.runtime 1000 bare)).
Proof.
  intros bare fs'.
  destruct (@authenticate_default_lifetime Examples.runtime Examples.env
              Examples.fresh fs' 1000 3541000 bare _
              eq_refl (or_introl eq_refl) eq_refl) as [H1 H2].
  split; [exact H1 | exact (H2 eq_refl)].
Defined.

(** X17.  Without credentials nothing else happens: when [getConfig] ends
    the process, [authenticate] leaves the file system as it was whatever
    the endpoint would answer, and a command ends the same way whatever
    [token.json] holds; both print the list of variables only. *)
Theorem no_credentials_no_effect {rt : Runtime} {A : Type} (env : Env) :
  (Docs.getConfig env = @Docs.missing_credentials Docs.MonerisConfig ->
   (forall fs now response,
      Docs.authenticate env fs now response
      = (fs, @Docs.missing_credentials unit)) /\
   (forall rest fs now,
      @Docs.with_token rt A rest env fs now = Docs.missing_credentials)) /\
  (General.getConfig env = @General.missing_credentials General.MonerisConfig ->
   forall rest fs now,
     @General.with_token rt A rest env fs now = General.missing_credentials) /\
  (Postman.getConfig env = @Postman.missing_credentials Postman.MonerisConfig ->
   forall rest fs now,
     @Postman.with_token rt A rest env fs now = Postman.missing_credentials).
Proof.
  repeat split; intros.
  - unfold Docs.authenticate. rewrite H. reflexivity.
  - unfold Docs.with_token. rewrite H. reflexivity.
  - unfold General.with_token. rewrite H. reflexivity.
  - unfold Postman.with_token. rewrite H. reflexivity.
Qed.

Lemma no_credentials_no_effect_example :
  let bare := {| MONERIS_CLIENT_ID := Some "client";
                 MONERIS_CLIENT_SECRET := None;
                 MONERIS_MERCHANT_ID := None;
                 MONERIS_ENV := None;
                 MONERIS_API_VERSION := None;
                 homedir := "/home/dev" |} in
  @Postman.with_token Examples.runtime unit
    (fun _ _ => console_log "request sent") bare
    (Examples.holding (JSON_stringify Examples.hour_token)) 0
  = Postman.missing_credentials.
Proof.
  intros bare.
  apply (proj2 (proj2 (@no_credentials_no_effect Examples.runtime unit bare))
           eq_refl).
Defined.

(** ** The test payment *)

Lemma andThen_ret {A B : Type} (a : A) (k : A -> proc B) :
  andThen (ret a) k = k a.
Proof. unfold andThen, ret. destruct (k a). reflexivity. Qed.

Lemma Docs_with_token_passes {rt : Runtime} {A : Type}
    (rest : Docs.MonerisConfig -> json -> proc A)
    (env : Env) (fs : FS) (now : Z) (cfg : Docs.MonerisConfig) (token : json) :
  Docs.getConfig env = ret cfg ->
  Docs.loadToken fs now = Ok token ->
  ToBoolean token = true ->
  Docs.with_token rest env fs now = rest cfg token.
Proof.
  intros Hc Hl Ht. unfold Docs.with_token.
  rewrite Hc, andThen_ret, Hl. unfold call. rewrite andThen_ret, Ht.
  reflexivity.
Qed.

Lemma amount_of_cents (n : nat) :
  (n < 100)%nat ->
  let amount :=
    ("1." ++ DocsTest.padStart2 (DocsTest.toString (Some (Z.of_nat n))))%string in
  String.length amount = 4%nat /\
  exists q, JSON.parse_number amount = Some (q, "") /\
            (q == (100 + Z.of_nat n) # 100)%Q.
Proof.
  intros H.
  do 100 (destruct n as [|n];
          [split; [reflexivity | eexists; split; reflexivity]|]).
  lia.
Qed.

(** X18.  The amount of a test payment always has two decimals: for
    cents from 0 to 99, in the sandbox and with a token, [test-payment]
    prints its two lines and runs [createPayment] with the test card, in
    CAD, and an amount of four characters that reads as 1 + cents/100. *)
Theorem test_payment_amount {rt : Runtime} {A : Type}
    (rest : DocsTest.PaymentArgs -> Docs.MonerisConfig -> json -> proc A)
    (cents : Z) (env : Env) (fs : FS) (stamp now : Z)
    (cfg : Docs.MonerisConfig) (token : json) :
  0 <= cents <= 99 ->
  Docs.getConfig env = ret cfg ->
  Docs.environment cfg = "sandbox" ->
  Docs.loadToken fs now = Ok token ->
  ToBoolean token = true ->
  exists args,
    DocsTest.test_payment rest (Some cents) env fs stamp now
    = (console_log (nl ++ "🧪 Testing payment with Penny Value Simulator...") ;;;
       console_log ("Test amount: $" ++ DocsTest.amount args
                    ++ " (cents value " ++ JSON.string_of_Z cents
                    ++ " determines the response)") ;;;
       rest args cfg token) /\
    String.length (DocsTest.amount args) = 4%nat /\
    (exists q, JSON.parse_number (DocsTest.amount args) = Some (q, "") /\
               (q == (100 + cents) # 100)%Q) /\
    DocsTest.currency args = "CAD" /\
    DocsTest.cardNumber args = Some "4242424242424242".
Proof.
  intros Hc Hcfg Henv Hl Ht.
  exists {| DocsTest.amount :=
              "1." ++ DocsTest.padStart2 (DocsTest.toString (Some cents));
            DocsTest.currency := "CAD";
            DocsTest.cardNumber := Some "4242424242424242";
            DocsTest.expiryMonth := Some "12";
            DocsTest.expiryYear := Some "25";
            DocsTest.cvd := Some "123";
            DocsTest.description :=
              Some ("Test payment - penny value "
                    ++ DocsTest.toString (Some cents));
            DocsTest.reference := Some ("test-" ++ JSON.string_of_Z stamp) |}.
  split; [|split; [|split; [|split]]].
  - unfold DocsTest.test_payment, DocsTest.out_of_range.
    replace ((cents <? 0) || (99 <? cents)) with false
      by (symmetry; apply orb_false_iff; split; apply Z.ltb_ge; lia).
    unfold DocsTest.testPayment, Docs.createPayment.
    rewrite Hcfg, andThen_ret, Henv. simpl negb. cbv iota.
    rewrite (Docs_with_token_passes _ env fs now cfg token Hcfg Hl Ht).
    reflexivity.
  - cbn [DocsTest.amount].
    pose proof (amount_of_cents (Z.to_nat cents) ltac:(lia)) as H.
    cbv zeta in H. rewrite Z2Nat.id in H by lia. apply H.
  - cbn [DocsTest.amount].
    pose proof (amount_of_cents (Z.to_nat cents) ltac:(lia)) as H.
    cbv zeta in H. rewrite Z2Nat.id in H by lia. apply H.
  - reflexivity.
  - reflexivity.
Qed.

Lemma test_payment_amount_example :
  exists args,
    @DocsTest.test_payment Examples.runtime unit
      (fun args _ _ => console_log (DocsTest.amount args))
      (Some 5) Examples.env
      (Examples.holding (JSON_stringify Examples.hour_token)) 1000 1001
    = (console_log (nl ++ "🧪 Testing payment with Penny Value Simulator...") ;;;
       console_log ("Test amount: $" ++ DocsTest.amount args
                    ++ " (cents value " ++ JSON.string_of_Z 5
                    ++ " determines the response)") ;;;
       console_log (DocsTest.amount args)) /\
    String.length (DocsTest.amount args) = 4%nat /\
    (exists q, JSON.parse_number (DocsTest.amount args) = Some (q, "") /\
               (q == (100 + 5) # 100)%Q) /\
    DocsTest.currency args = "CAD" /\
    DocsTest.cardNumber args = Some "4242424242424242".
Proof.
  apply (@test_payment_amount Examples.runtime unit
           (fun args _ _ => console_log (DocsTest.amount args)) 5
           Examples.env
           (Examples.holding (JSON_stringify Examples.hour_token)) 1000 1001
           MoreExamples.sandbox_config (json_of_token Examples.hour_token)).
  - split; discriminate.
  - reflexivity.
  - reflexivity.
  - reflexivity.
  - reflexivity.
Defined.

(** X19.  The check of [--pennies]: an integer below 0 or above 99 ends
    the command with status 1 after one line, before the configuration or
    the token is looked at.  A value [parseInt] could not read, NaN, is not
    caught by the check: it goes on to [testPayment], and in the sandbox
    with a token [createPayment] is run with the amount [1.NaN]. *)
Theorem pennies_check {rt : Runtime} {A : Type}
    (rest : DocsTest.PaymentArgs -> Docs.MonerisConfig -> json -> proc A)
    (env : Env) (fs : FS) (stamp now : Z) :
  (forall cents, cents < 0 \/ 99 < cents ->
     DocsTest.test_payment rest (Some cents) env fs stamp now
     = ([Stderr "✗ Pennies must be between 0 and 99"], Exits 1)) /\
  (forall cfg token,
     Docs.getConfig env = ret cfg ->
     Docs.environment cfg = "sandbox" ->
     Docs.loadToken fs now = Ok token ->
     ToBoolean token = true ->
     exists args,
       DocsTest.amount args = "1.NaN" /\
       DocsTest.test_payment rest None env fs stamp now
       = (console_log (nl ++ "🧪 Testing payment with Penny Value Simulator...") ;;;
          console_log
            "Test amount: $1.NaN (cents value NaN determines the response)" ;;;
          rest args cfg token)).
Proof.
  split.
  - intros cents Hc. unfold DocsTest.test_payment, DocsTest.out_of_range.
    replace ((cents <? 0) || (99 <? cents)) with true; [reflexivity|].
    symmetry. apply orb_true_iff.
    destruct Hc; [left | right]; apply Z.ltb_lt; assumption.
  - intros cfg token Hcfg Henv Hl Ht.
    exists {| DocsTest.amount := "1.NaN";
              DocsTest.currency := "CAD";
              DocsTest.cardNumber := Some "4242424242424242";
              DocsTest.expiryMonth := Some "12";
              DocsTest.expiryYear := Some "25";
              DocsTest.cvd := Some "123";
              DocsTest.description := Some "Test payment - penny value NaN";
              DocsTest.reference := Some ("test-" ++ JSON.string_of_Z stamp) |}.
    split; [reflexivity|].
    unfold DocsTest.test_payment, DocsTest.out_of_range,
      DocsTest.testPayment, Docs.createPayment.
    rewrite Hcfg, andThen_ret, Henv. simpl negb. cbv iota.
    rewrite (Docs_with_token_passes _ env fs now cfg token Hcfg Hl Ht).
    reflexivity.
Qed.

Lemma pennies_check_example :
  @DocsTest.test_payment Examples.runtime unit
    (fun args _ _ => console_log (DocsTest.amount args))
    (Some 100) Examples.env Examples.fresh 1000 1001
  = ([Stderr "✗ Pennies must be between 0 and 99"], Exits 1) /\
  exists args,
    DocsTest.amount args = "1.NaN" /\
    @DocsTest.test_payment Examples.runtime unit
      (fun args _ _ => console_log (DocsTest.amount args))
      None Examples.env
      (Examples.holding (JSON_stringify Examples.hour_token)) 1000 1001
    = (console_log (nl ++ "🧪 Testing payment with Penny Value Simulator...") ;;;
       console_log
         "Test amount: $1.NaN (cents value NaN determines the response)" ;;;
       console_log (DocsTest.amount args)).
Proof.
  split.
  - apply (proj1 (@pennies_check Examples.runtime unit
                    (fun args _ _ => console_log (DocsTest.amount args))
                    Examples.env Examples.fresh 1000 1001) 100).
    right. reflexivity.
  - apply (proj2 (@pennies_check Examples.runtime unit
                    (fun args _ _ => console_log (DocsTest.amount args))
                    Examples.env
                    (Examples.holding (JSON_stringify Examples.hour_token))
                    1000 1001)
             MoreExamples.sandbox_config (json_of_token Examples.hour_token));
      reflexivity.
Defined.

(** X20.  Outside the sandbox no test payment is made: when the
    configured environment is not [sandbox], [testPayment] prints its two
    lines and ends with status 1, whatever the token file holds and without
    running [createPayment]. *)
Theorem testPayment_sandbox_only {rt : Runtime} {A : Type}
    (rest : DocsTest.PaymentArgs -> Docs.MonerisConfig -> json -> proc A)
    (cents : option Z) (env : Env) (fs : FS) (stamp now : Z)
    (cfg : Docs.MonerisConfig) :
  Docs.getConfig env = ret cfg ->
  Docs.environment cfg <> "sandbox" ->
  DocsTest.testPayment rest cents env fs stamp now
  = ([ Stderr (nl ++ "✗ Test payments only work in sandbox environment");
       Stdout "Please set MONERIS_ENV=sandbox" ],
     Exits 1).
Proof.
  intros Hcfg Henv. unfold DocsTest.testPayment.
  rewrite Hcfg, andThen_ret.
  destruct (String.eqb_spec (Docs.environment cfg) "sandbox");
    [contradiction | reflexivity].
Qed.

Lemma testPayment_sandbox_only_example :
  @DocsTest.testPayment Examples.runtime unit
    (fun args _ _ => console_log (DocsTest.amount args))
    (Some 5) MoreExamples.production
    (Examples.holding (JSON_stringify Examples.hour_token)) 1000 1001
  = ([ Stderr (nl ++ "✗ Test payments only work in sandbox environment");
       Stdout "Please set MONERIS_ENV=sandbox" ],
     Exits 1).
Proof.
  apply (@testPayment_sandbox_only Examples.runtime unit _ (Some 5)
           MoreExamples.production _ 1000 1001
           MoreExamples.production_config eq_refl).
  discriminate.
Defined.

(** ** Deleting all payments *)

Module PostmanDeleteFacts.
Import PostmanDelete.

Lemma requests_app (a b : list event) :
  requests (a ++ b) = (requests a ++ requests b)%list.
Proof.
  induction a as [|[l|r] a IH]; simpl; [reflexivity | exact IH |].
  now rewrite IH.
Qed.

Lemma requests_shown (out : list line) : requests (map Shown out) = [].
Proof. induction out; simpl; auto. Qed.

Lemma requests_sent (rs : list request) : requests (map Sent rs) = rs.
Proof. induction rs; simpl; [reflexivity | now f_equal]. Qed.

Lemma fetch_all_pages (front : list ListPaymentsResponse)
    (final : ListPaymentsResponse)
    (extra : list (result ListPaymentsResponse))
    (cursor : option string) (acc : list string) :
  Forall (fun r => has_more r = true) front ->
  has_more final = false ->
  fetch_all (map Ok (front ++ [final]) ++ extra) cursor acc
  = (map Sent
       (GetPayments (sent_cursor cursor)
        :: map (fun r => GetPayments (sent_cursor (next_cursor r))) front),
     Some (Ok (acc ++ List.concat (map data front) ++ data final)%list)).
Proof.
  intros Hf Hl. revert cursor acc.
  induction Hf as [|r front Hr Hf IH]; intros cursor acc; simpl.
  - rewrite Hl. reflexivity.
  - rewrite Hr, IH. simpl. now rewrite <- !app_assoc.
Qed.

Lemma fetch_all_more (answers : list (result ListPaymentsResponse))
    (cursor : option string) (acc : list string) :
  Forall says_more answers ->
  snd (fetch_all answers cursor acc) = None /\
  List.length (fst (fetch_all answers cursor acc)) = List.length answers.
Proof.
  intros H. revert cursor acc.
  induction H as [|a answers (r & -> & Hr) H IH]; intros cursor acc; simpl.
  - split; reflexivity.
  - rewrite Hr. specialize (IH (next_cursor r) (acc ++ data r)%list).
    destruct (fetch_all answers (next_cursor r) (acc ++ data r)%list)
      as [events outcome]. simpl in *. destruct IH as [-> ->]. split; reflexivity.
Qed.

Lemma fetch_all_first_page_again
    (answers : list (result ListPaymentsResponse)) (acc : list string) :
  Forall (fun a => exists r, a = Ok r /\ has_more r = true /\
                             sent_cursor (next_cursor r) = None) answers ->
  fst (fetch_all answers None acc)
  = repeat (Sent (GetPayments None)) (List.length answers).
Proof.
  intros H.
  assert (G : forall cursor acc, sent_cursor cursor = None ->
            fst (fetch_all answers cursor acc)
            = repeat (Sent (GetPayments None)) (List.length answers)).
  { induction H as [|a answers (r & -> & Hr & Hc) H IH];
      intros cursor acc' Hcur; simpl; [reflexivity|].
    rewrite Hr, Hcur. specialize (IH (next_cursor r) (acc' ++ data r)%list Hc).
    destruct (fetch_all answers (next_cursor r) (acc' ++ data r)%list).
    simpl in *. now rewrite IH. }
  apply G. reflexivity.
Qed.

Lemma delete_each_spec (answer : string -> delete_answer)
    (payments : list string) (d f : Z) :
  requests (fst (delete_each answer payments d f))
  = map DeletePayment payments /\
  fst (snd (delete_each answer payments d f))
  = d + Z.of_nat (List.length
                    (filter (fun p => match answer p with
                                      | Deleted => true
                                      | Refused _ => false
                                      end) payments)) /\
  fst (snd (delete_each answer payments d f))
  + snd (snd (delete_each answer payments d f))
  = d + f + Z.of_nat (List.length payments).
Proof.
  revert d f. induction payments as [|p payments IH]; intros d f.
  - simpl. repeat split; lia.
  - cbn [delete_each]. destruct (answer p) as [|status] eqn:E.
    + specialize (IH (d + 1) f).
      destruct (delete_each answer payments (d + 1) f) as [ev [d' f']].
      cbn [fst snd] in *. destruct IH as (R & D & S).
      cbn [requests filter map]. rewrite E. cbn [List.length].
      repeat split; [now rewrite R | lia | lia].
    + specialize (IH d (f + 1)).
      destruct (delete_each answer payments d (f + 1)) as [ev [d' f']].
      cbn [fst snd] in *. destruct IH as (R & D & S).
      cbn [requests filter map]. rewrite E. cbn [List.length].
      rewrite requests_app.
      match goal with |- context [(requests ?t ++ requests ev)%list] =>
        assert (T : requests t = [])
          by (destruct status as [z|];
              [ destruct z as [|q|q]; try reflexivity;
                repeat (destruct q as [q|q|]; try reflexivity)
              | reflexivity ])
      end.
      rewrite T. repeat split; [simpl; now rewrite R | lia | lia].
Qed.
End PostmanDeleteFacts.

Lemma fetch_all_only_gets
    (answers : list (result PostmanDelete.ListPaymentsResponse))
    (cursor : option string) (acc : list string) :
  exists cursors,
    fst (PostmanDelete.fetch_all answers cursor acc)
    = map (fun c => PostmanDelete.Sent (PostmanDelete.GetPayments c)) cursors.
Proof.
  revert cursor acc. induction answers as [|a answers IH]; intros cursor acc.
  - exists []. reflexivity.
  - simpl. destruct a as [r|e].
    + destruct (PostmanDelete.has_more r).
      * destruct (IH (PostmanDelete.next_cursor r)
                     (acc ++ PostmanDelete.data r)%list) as [cs Hcs].
        destruct (PostmanDelete.fetch_all answers _ _) as [ev oc].
        simpl in *. subst ev.
        exists (PostmanDelete.sent_cursor cursor :: cs). reflexivity.
      * exists [PostmanDelete.sent_cursor cursor]. reflexivity.
    + exists [PostmanDelete.sent_cursor cursor]. reflexivity.
Qed.

Lemma gets_hold_no_delete (cursors : list (option string)) (id : string) :
  ~ In (PostmanDelete.DeletePayment id)
      (PostmanDelete.requests
         (map (fun c => PostmanDelete.Sent (PostmanDelete.GetPayments c))
              cursors)).
Proof.
  induction cursors as [|c cs IH]; simpl; [tauto|].
  intros [H | H]; [discriminate | exact (IH H)].
Qed.

(** X21.  The loop that fetches the payments follows the cursors: when
    the server answers with pages that say there is more and then with one
    that does not, the loop asks once per page, each time with the cursor
    of the page before (none for the first page, and none where the cursor
    is missing or empty), stops there, and gives the payments of all the
    pages in order. *)
Theorem pages_are_followed
    (front : list PostmanDelete.ListPaymentsResponse)
    (final : PostmanDelete.ListPaymentsResponse)
    (extra : list (result PostmanDelete.ListPaymentsResponse)) :
  Forall (fun r => PostmanDelete.has_more r = true) front ->
  PostmanDelete.has_more final = false ->
  PostmanDelete.fetch_all (map Ok (front ++ [final]) ++ extra) None []
  = (map PostmanDelete.Sent
       (PostmanDelete.GetPayments None
        :: map (fun r => PostmanDelete.GetPayments
                           (PostmanDelete.sent_cursor
                              (PostmanDelete.next_cursor r))) front),
     Some (Ok (List.concat (map PostmanDelete.data front)
               ++ PostmanDelete.data final)%list)).
Proof.
  intros Hf Hl.
  exact (PostmanDeleteFacts.fetch_all_pages front final extra None [] Hf Hl).
Qed.

Lemma pages_are_followed_example :
  PostmanDelete.fetch_all MoreExamples.two_pages None []
  = (map PostmanDelete.Sent
       [ PostmanDelete.GetPayments None;
         PostmanDelete.GetPayments (Some "d41d8cd9") ],
     Some (Ok ["pay_1"; "pay_2"; "pay_3"])).
Proof.
  apply (pages_are_followed
           [ {| PostmanDelete.data := ["pay_1"; "pay_2"];
                PostmanDelete.has_more := true;
                PostmanDelete.next_cursor := Some "d41d8cd9" |} ]
           {| PostmanDelete.data := ["pay_3"];
              PostmanDelete.has_more := false;
              PostmanDelete.next_cursor := None |} []).
  - repeat constructor.
  - reflexivity.
Defined.

(** X22.  The loop has no bound of its own: as long as every answer says
    there is more, it has sent one request per answer and is asking again,
    and the command has come to no end.  When those answers carry no
    cursor, every one of the requests asks for the first page. *)
Theorem pages_without_end (confirm : bool)
    (answers : list (result PostmanDelete.ListPaymentsResponse))
    (answer : string -> PostmanDelete.delete_answer) :
  Forall PostmanDelete.says_more answers ->
  PostmanDelete.deleteAllPayments confirm answers answer = None /\
  List.length (fst (PostmanDelete.fetch_all answers None []))
  = List.length answers /\
  (Forall (fun a => exists r, a = Ok r /\
             PostmanDelete.sent_cursor (PostmanDelete.next_cursor r) = None)
          answers ->
   fst (PostmanDelete.fetch_all answers None [])
   = repeat (PostmanDelete.Sent (PostmanDelete.GetPayments None))
            (List.length answers)).
Proof.
  intros H.
  destruct (PostmanDeleteFacts.fetch_all_more answers None [] H) as [Hn Hl].
  split; [|split; [exact Hl|]].
  - unfold PostmanDelete.deleteAllPayments.
    destruct (PostmanDelete.fetch_all answers None []) as [ev oc].
    simpl in Hn. subst oc. reflexivity.
  - intros Hc. apply PostmanDeleteFacts.fetch_all_first_page_again.
    rewrite Forall_forall in *. intros a Ha.
    destruct (H a Ha) as (r & -> & Hr).
    destruct (Hc _ Ha) as (r' & E & Hs). inversion E; subst r'.
    exists r. repeat split; assumption.
Qed.

Lemma pages_without_end_example :
  PostmanDelete.deleteAllPayments true
    [MoreExamples.endless; MoreExamples.endless; MoreExamples.endless]
    MoreExamples.not_supported
  = None /\
  fst (PostmanDelete.fetch_all
         [MoreExamples.endless; MoreExamples.endless; MoreExamples.endless]
         None [])
  = repeat (PostmanDelete.Sent (PostmanDelete.GetPayments None)) 3.
Proof.
  assert (H : Forall PostmanDelete.says_more
                [MoreExamples.endless; MoreExamples.endless;
                 MoreExamples.endless])
    by (repeat constructor; eexists; split; reflexivity).
  destruct (pages_without_end true _ MoreExamples.not_supported H)
    as (H1 & _ & H3).
  split; [exact H1|]. apply H3.
  repeat constructor; eexists; split; reflexivity.
Defined.

(** X23.  Nothing is deleted without [--confirm]: whatever the server
    answers, when the command ends without the flag it has sent no DELETE
    request, it has ended by returning or with status 1, and what it did
    does not depend on what the server would answer to a DELETE. *)
Theorem no_deletion_without_confirm
    (answers : list (result PostmanDelete.ListPaymentsResponse))
    (answer answer' : string -> PostmanDelete.delete_answer)
    (events : list PostmanDelete.event) (st : status unit) :
  PostmanDelete.deleteAllPayments false answers answer = Some (events, st) ->
  (forall id, ~ In (PostmanDelete.DeletePayment id)
                  (PostmanDelete.requests events)) /\
  (st = Returns tt \/ st = Exits 1) /\
  PostmanDelete.deleteAllPayments false answers answer' = Some (events, st).
Proof.
  unfold PostmanDelete.deleteAllPayments.
  destruct (fetch_all_only_gets answers None []) as [cs Hcs].
  destruct (PostmanDelete.fetch_all answers None []) as [gets [[all|e]|]];
    simpl in Hcs; subst gets; [| |discriminate].
  - destruct all as [|p all]; simpl negb; cbv iota; intros H;
      inversion H; subst; (split; [|split; [left; reflexivity | reflexivity]]);
      intros id; simpl;
      rewrite PostmanDeleteFacts.requests_app; simpl;
      rewrite app_nil_r; apply gets_hold_no_delete.
  - destruct (@PostmanDelete.handleError unit e "Delete all payments")
      as [out st'] eqn:E.
    intros H. inversion H; subst.
    split; [|split; [right | reflexivity]].
    + intros id. simpl. rewrite PostmanDeleteFacts.requests_app,
        PostmanDeleteFacts.requests_shown, app_nil_r.
      apply gets_hold_no_delete.
    + apply (f_equal snd) in E. simpl in E. rewrite <- E.
      destruct e; reflexivity.
Qed.

Lemma no_deletion_without_confirm_example :
  let r := PostmanDelete.deleteAllPayments false MoreExamples.two_pages
             MoreExamples.not_supported in
  exists events st,
    r = Some (events, st) /\
    (forall id, ~ In (PostmanDelete.DeletePayment id)
                    (PostmanDelete.requests events)) /\
    (st = Returns tt \/ st = Exits 1).
Proof.
  intros r. eexists _, _. split; [reflexivity|].
  pose proof (no_deletion_without_confirm MoreExamples.two_pages
                MoreExamples.not_supported MoreExamples.not_supported
                _ _ eq_refl) as (H1 & H2 & _).
  split; [exact H1 | exact H2].
Defined.

(** X24.  With [--confirm], once the payments are fetched and there is
    at least one, the command sends one DELETE per payment, in the order
    fetched, after the GET requests, and returns whatever the server
    answers to them: a failed deletion does not fail the command.  The two
    counts it prints add up to the number of payments, the first being the
    number of deletions the server accepted. *)
Theorem confirmed_deletion_tries_every_payment
    (answers : list (result PostmanDelete.ListPaymentsResponse))
    (answer : string -> PostmanDelete.delete_answer)
    (gets : list PostmanDelete.event) (first : string) (others : list string) :
  PostmanDelete.fetch_all answers None [] = (gets, Some (Ok (first :: others))) ->
  let all := first :: others in
  let accepted :=
    Z.of_nat (List.length
                (filter (fun p => match answer p with
                                  | PostmanDelete.Deleted => true
                                  | PostmanDelete.Refused _ => false
                                  end) all)) in
  exists events,
    PostmanDelete.deleteAllPayments true answers answer
    = Some (events, Returns tt) /\
    PostmanDelete.requests events
    = (PostmanDelete.requests gets
       ++ map PostmanDelete.DeletePayment all)%list /\
    In (PostmanDelete.print
          ("✓ Deleted: " ++ JSON.string_of_Z accepted ++ " payment(s)"))
       events /\
    In (PostmanDelete.print
          ("⚠ Not supported: "
           ++ JSON.string_of_Z (Z.of_nat (List.length all) - accepted)
           ++ " payment(s)"))
       events.
Proof.
  intros Hf all accepted.
  unfold PostmanDelete.deleteAllPayments. rewrite Hf.
  simpl negb. cbv iota.
  destruct (PostmanDeleteFacts.delete_each_spec answer all 0 0)
    as (R & D & S).
  fold all.
  destruct (PostmanDelete.delete_each answer all 0 0) as [dels [d f]].
  cbn [fst snd] in R, D, S. rewrite Z.add_0_l in D. fold accepted in D.
  assert (Ef : f = Z.of_nat (List.length all) - accepted) by lia.
  subst d f.
  eexists. split; [reflexivity|]. split; [|split].
  - cbv zeta. unfold PostmanDelete.print.
    repeat first [ rewrite PostmanDeleteFacts.requests_app
                 | progress cbn [PostmanDelete.requests app] ].
    rewrite R, app_nil_r. reflexivity.
  - cbv zeta. do 5 (apply in_or_app; right). right. left. reflexivity.
  - cbv zeta. do 5 (apply in_or_app; right). right. right. left. reflexivity.
Qed.

Lemma confirmed_deletion_tries_every_payment_example :
  exists events,
    PostmanDelete.deleteAllPayments true MoreExamples.two_pages
      MoreExamples.not_supported
    = Some (events, Returns tt) /\
    PostmanDelete.requests events
    = [ PostmanDelete.GetPayments None;
        PostmanDelete.GetPayments (Some "d41d8cd9");
        PostmanDelete.DeletePayment "pay_1";
        PostmanDelete.DeletePayment "pay_2";
        PostmanDelete.DeletePayment "pay_3" ] /\
    In (PostmanDelete.print "✓ Deleted: 0 payment(s)") events /\
    In (PostmanDelete.print "⚠ Not supported: 3 payment(s)") events.
Proof.
  apply (confirmed_deletion_tries_every_payment MoreExamples.two_pages
           MoreExamples.not_supported _ "pay_1" ["pay_2"; "pay_3"] eq_refl).
Defined.

(** X25.  A DELETE is reached only after a listing that succeeded and
    found something.  With or without [--confirm]: when a GET throws, the
    command reports "Delete all payments failed" and ends with status 1,
    the payments fetched so far being dropped; when the listing is empty it
    prints "No payments found" and returns.  In both cases no DELETE is
    sent. *)
Theorem deletion_needs_a_listing (confirm : bool)
    (answers : list (result PostmanDelete.ListPaymentsResponse))
    (answer : string -> PostmanDelete.delete_answer)
    (gets : list PostmanDelete.event) :
  (forall error,
     PostmanDelete.fetch_all answers None [] = (gets, Some (Throw error)) ->
     exists events,
       PostmanDelete.deleteAllPayments confirm answers answer
       = Some (events, Exits 1) /\
       In (PostmanDelete.Shown
             (Stderr (nl ++ "✗ Delete all payments failed"))) events /\
       forall id, ~ In (PostmanDelete.DeletePayment id)
                       (PostmanDelete.requests events)) /\
  (PostmanDelete.fetch_all answers None [] = (gets, Some (Ok [])) ->
   exists events,
     PostmanDelete.deleteAllPayments confirm answers answer
     = Some (events, Returns tt) /\
     In (PostmanDelete.print (nl ++ "⚠ No payments found")) events /\
     forall id, ~ In (PostmanDelete.DeletePayment id)
                     (PostmanDelete.requests events)).
Proof.
  destruct (fetch_all_only_gets answers None []) as [cs Hcs].
  split.
  - intros error Hf. rewrite Hf in Hcs. simpl in Hcs. subst gets.
    unfold PostmanDelete.deleteAllPayments. rewrite Hf.
    destruct (@PostmanDelete.handleError unit error "Delete all payments")
      as [out st] eqn:E.
    assert (Est : st = Exits 1)
      by (apply (f_equal snd) in E; simpl in E; rewrite <- E;
          destruct error; reflexivity).
    assert (Eout : In (Stderr (nl ++ "✗ Delete all payments failed")) out)
      by (apply (f_equal fst) in E; simpl in E; rewrite <- E;
          destruct error; simpl; auto).
    subst st. eexists. split; [reflexivity|]. split.
    + do 2 (apply in_or_app; right). now apply in_map.
    + intros id. cbv zeta. unfold PostmanDelete.print.
      repeat first [ rewrite PostmanDeleteFacts.requests_app
                   | progress cbn [PostmanDelete.requests app] ].
      rewrite PostmanDeleteFacts.requests_shown, app_nil_r.
      apply gets_hold_no_delete.
  - intros Hf. rewrite Hf in Hcs. simpl in Hcs. subst gets.
    unfold PostmanDelete.deleteAllPayments. rewrite Hf.
    eexists. split; [reflexivity|]. split.
    + do 2 (apply in_or_app; right). left. reflexivity.
    + intros id. cbv zeta. unfold PostmanDelete.print.
      repeat first [ rewrite PostmanDeleteFacts.requests_app
                   | progress cbn [PostmanDelete.requests app] ].
      rewrite app_nil_r. apply gets_hold_no_delete.
Qed.

Lemma deletion_needs_a_listing_example :
  exists events,
    PostmanDelete.deleteAllPayments true
      [ MoreExamples.endless; Throw (AxiosError ["Status: 500"]) ]
      MoreExamples.not_supported
    = Some (events, Exits 1) /\
    In (PostmanDelete.Shown
          (Stderr (nl ++ "✗ Delete all payments failed"))) events /\
    forall id, ~ In (PostmanDelete.DeletePayment id)
                    (PostmanDelete.requests events).
Proof.
  apply (proj1 (deletion_needs_a_listing true
                  [ MoreExamples.endless; Throw (AxiosError ["Status: 500"]) ]
                  MoreExamples.not_supported
                  [ PostmanDelete.Sent (PostmanDelete.GetPayments None);
                    PostmanDelete.Sent (PostmanDelete.GetPayments None) ])
           (AxiosError ["Status: 500"])).
  reflexivity.
Defined.
